(** * Projectile Motion Simulation: the interaction core of [projectile/main.py]

    A shallow embedding of [ProjectileMain]: the pointer mappings between
    screen and simulation coordinates, the pointer-down hit test, the
    drag-release impulse, the create/remove operations on tracked obstacles
    and the event loop that ties them together.

    Numbers.  Pixel coordinates are integers ([Z]); the values of Python
    floats are rationals ([Q]).  The built-in [round] is modelled exactly
    (round half to even).  In the pointer mappings, where a rounding error
    of the float arithmetic can move a result across a rounding boundary,
    the sums and differences that numpy computes are rounded to the nearest
    double ([float64]) before [round] sees them; the arithmetic of the
    launch impulse is kept on the rationals.  The trigonometric functions of
    the math library, the physics engine's point query and step, and the
    classes that [main.py] imports from other modules are taken as
    parameters, gathered in [Externals]. *)

From Stdlib Require Import ZArith QArith Qround Qabs Qpower String List Bool Lia Lqa.
From stdpp Require Import base option list gmap.
Import ListNotations.

Local Open Scope Z_scope.

(** ** Numbers *)

Module PyNum.

(** Built-in [round(x)] with no digits argument: nearest integer, ties to
    the even neighbour. *)
Definition py_round (q : Q) : Z :=
  let f := Qfloor q in
  match Qcompare (q - inject_Z f) (1 # 2) with
  | Lt => f
  | Gt => f + 1
  | Eq => if Z.even f then f else f + 1
  end.

(** [q] lies exactly half way between two integers. *)
Definition is_tie (q : Q) : Prop := (q - inject_Z (Qfloor q) == 1 # 2)%Q.

(** [x < y] on floats, as a boolean. *)
Definition Qltb (x y : Q) : bool := negb (Qle_bool y x).

(** The binade of a positive number: the [k] with [2^k <= q < 2^(k+1)].
    The difference of the two logarithms is [k] or [k + 1]. *)
Definition binade (q : Q) : Z :=
  let k := Z.log2 (Qnum q) - Z.log2 (Zpos (Qden q)) in
  if Qle_bool (2 ^ k) q then k else k - 1.

(** What a float operation returns for the exact result [q]: the nearest
    double, that is [q] rounded to 53 significant bits, ties to the even
    significand (IEEE 754 binary64, round to nearest even; overflow and
    subnormal numbers are left out). *)
Definition float64 (q : Q) : Q :=
  if Qeq_bool q 0 then 0%Q
  else
    let e := binade (Qabs q) - 52 in
    let v := (inject_Z (py_round (Qabs q / 2 ^ e)) * 2 ^ e)%Q in
    if Qle_bool 0 q then v else (- v)%Q.

End PyNum.

Import PyNum.

(** ** Vectors and points *)

(** [pymunk.vec2d.Vec2d]: a pair of floats. *)
Record Vec2d := mkVec2d { vx : Q; vy : Q }.

(** A tuple of two Python ints: what [pygame.mouse.get_pos()], [event.pos],
    [to_pygame] and [from_pygame] return. *)
Definition Point : Type := Z * Z.

Definition vec_of_point (p : Point) : Vec2d :=
  mkVec2d (inject_Z (fst p)) (inject_Z (snd p)).

(** [Vec2d.__sub__], [Vec2d.__rsub__]. *)
Definition vec_sub (u v : Vec2d) : Vec2d :=
  mkVec2d (vx u - vx v)%Q (vy u - vy v)%Q.

(** [np.add] and [np.subtract] on pairs: each coordinate of the result is a
    double. *)
Definition np_add (u v : Vec2d) : Vec2d :=
  mkVec2d (float64 (vx u + vx v)) (float64 (vy u + vy v)).

Definition np_subtract (u v : Vec2d) : Vec2d :=
  mkVec2d (float64 (vx u - vx v)) (float64 (vy u - vy v)).

(** [Vec2d.__rmul__]: a scalar times a vector. *)
Definition vec_scale (k : Q) (v : Vec2d) : Vec2d :=
  mkVec2d (k * vx v)%Q (k * vy v)%Q.

(** Equality of vectors up to the representation of the rationals. *)
Definition vec_eq (u v : Vec2d) : Prop :=
  (vx u == vx v)%Q /\ (vy u == vy v)%Q.

(** ** The objects the program handles *)

Inductive BodyType := DYNAMIC | KINEMATIC | STATIC.

Definition BodyType_eqb (a b : BodyType) : bool :=
  match a, b with
  | DYNAMIC, DYNAMIC | KINEMATIC, KINEMATIC | STATIC, STATIC => true
  | _, _ => false
  end.

(** A [pymunk.Shape]: an object with an identity, attached to the body with
    identity [shape_body].  [radius] is the attribute the selection overlay
    reads. *)
Record Shape := mkShape {
  shape_id : nat;
  shape_body : nat;
  radius : Q
}.

(** A [pymunk.Body].  Bodies are mutable and shared (the space, the shapes
    and [active_shape] all reach the same object), so they live in a store
    indexed by identity.  [impulses] records, latest first, the arguments
    of [apply_impulse_at_local_point]; what the engine makes of them is not
    part of this program. *)
Record Body := mkBody {
  position : Vec2d;
  angle : Q;
  body_type : BodyType;
  shapes : list Shape;
  impulses : list Vec2d
}.

#[global] Instance Body_inhabited : Inhabited Body :=
  populate (mkBody (mkVec2d 0 0) 0 STATIC [] []).

(** A [pymunk.Space], as far as the program looks at it: the bodies and
    the shapes that were added, in insertion order. *)
Record Space := mkSpace {
  space_bodies : list nat;
  space_shapes : list nat
}.

(** Modelled from the spec: the [Camera] class ([projectile/includes/camera.py]
    is not part of the sources).  Spec section 3, CameraState: pan offset,
    zoom factor and rotation. *)
Record Camera := mkCamera {
  x_offset : Q;
  y_offset : Q;
  zoom : Q;
  rotation : Q
}.

(** Modelled from the spec: the [Entry] widget ([includes/entry.py] is not
    part of the sources).  Spec section 6: a text value and a focus/busy
    status flag. *)
Record Entry := mkEntry {
  text : string;
  status : bool
}.

Definition get_status (e : Entry) : bool := status e.

(** Modelled from the spec: [StaticObstacle] ([projectile/includes/sprites.py]
    is not part of the sources).  Spec section 3, TrackedObject: a name, a
    handle on the body and its shape, and the shape parameters. *)
Inductive SizeParam := Radius (r : Z) | Multiplier (m : Z).

Record StaticObstacle := mkStaticObstacle {
  name : string;
  kind : string;
  size_param : SizeParam;
  obstacle_body : nat;
  obstacle_shape : Shape
}.

Inductive Key := K_ESCAPE | K_c | K_BACKSPACE | K_SPACE | K_other (code : nat).

Inductive EventType :=
| QUIT
| KEYDOWN (key : Key)
| MOUSEBUTTONDOWN
| MOUSEMOTION
| MOUSEBUTTONUP
| OTHEREVENT.

(** An event taken from the queue: its type, its [pos] attribute and what
    [pygame.mouse.get_pos()] answers while it is handled. *)
Record Event := mkEvent {
  etype : EventType;
  pos : Point;
  mouse_get_pos : Point
}.

(** Exceptions that can leave the modelled code. *)
Inductive Exn :=
| AttributeError   (* attribute access on None *)
| IndexError       (* [list(...)[0]] on an empty list *)
| AssertionError   (* the engine refuses an add or a remove *)
| ValueError       (* [int(...)] of a text that is no number *)
| EngineError.     (* an error raised inside a spatial query *)

(** ** What the program takes from outside [main.py] *)

Record Externals := mkExternals {
  (* pymunk.pygame_util.positive_y_is_up, a module-level flag *)
  positive_y_is_up : bool;
  (* constants: the window size and the frame rate *)
  SIZE : Z * Z;
  FPS : Z;
  (* math.cos, math.sin, math.atan2 *)
  math_cos : Q -> Q;
  math_sin : Q -> Q;
  math_atan2 : Q -> Q -> Q;
  (* Shape.point_query(p).distance for a shape attached to the given body;
     None when the query raises an error *)
  point_query : Body -> Shape -> Point -> option Q;
  (* Space.step(dt) on the store of bodies *)
  space_step : Space -> gmap nat Body -> gmap nat Body;
  (* Entry.handle_entry_events(event) *)
  handle_entry_events : Event -> Entry -> Entry;
  (* Camera.compute_translation_and_scaling(keys), on the held keys *)
  compute_translation_and_scaling : list Key -> Camera -> Camera
}.

(** ** The state of [ProjectileMain] *)

Record ProjectileMain := mkMain {
  space : Space;
  heap : gmap nat Body;          (* every body ever built, by identity *)
  next_id : nat;                 (* next fresh identity *)
  camera : Camera;
  entry_name : Entry;
  entry_multiplier : Entry;
  entry_pos_x : Entry;
  entry_pos_y : Entry;
  selected_object : string;
  ready_to_step : bool;
  during_query : bool;
  show_info : bool;
  info_frame : Z;
  label_info : string;           (* text of the info label *)
  objects : list StaticObstacle;
  active_shape : option Shape;
  pulling : bool;
  running : bool;
  m_position : option Point
}.

(** [self.__impulse], set once in [__init__]. *)
Definition impulse : Z := -1000.

(** [self.__entries] *)
Definition entries (st : ProjectileMain) : list Entry :=
  [entry_name st; entry_multiplier st; entry_pos_x st; entry_pos_y st].

(** Assignments to single attributes. *)
Definition set_space (v : Space) (s : ProjectileMain) : ProjectileMain :=
  mkMain v (heap s) (next_id s) (camera s) (entry_name s) (entry_multiplier s)
    (entry_pos_x s) (entry_pos_y s) (selected_object s) (ready_to_step s)
    (during_query s) (show_info s) (info_frame s) (label_info s) (objects s)
    (active_shape s) (pulling s) (running s) (m_position s).

Definition set_heap (v : gmap nat Body) (s : ProjectileMain) : ProjectileMain :=
  mkMain (space s) v (next_id s) (camera s) (entry_name s) (entry_multiplier s)
    (entry_pos_x s) (entry_pos_y s) (selected_object s) (ready_to_step s)
    (during_query s) (show_info s) (info_frame s) (label_info s) (objects s)
    (active_shape s) (pulling s) (running s) (m_position s).

Definition set_next_id (v : nat) (s : ProjectileMain) : ProjectileMain :=
  mkMain (space s) (heap s) v (camera s) (entry_name s) (entry_multiplier s)
    (entry_pos_x s) (entry_pos_y s) (selected_object s) (ready_to_step s)
    (during_query s) (show_info s) (info_frame s) (label_info s) (objects s)
    (active_shape s) (pulling s) (running s) (m_position s).

Definition set_camera (v : Camera) (s : ProjectileMain) : ProjectileMain :=
  mkMain (space s) (heap s) (next_id s) v (entry_name s) (entry_multiplier s)
    (entry_pos_x s) (entry_pos_y s) (selected_object s) (ready_to_step s)
    (during_query s) (show_info s) (info_frame s) (label_info s) (objects s)
    (active_shape s) (pulling s) (running s) (m_position s).

Definition set_entries (f : Entry -> Entry) (s : ProjectileMain) : ProjectileMain :=
  mkMain (space s) (heap s) (next_id s) (camera s) (f (entry_name s))
    (f (entry_multiplier s)) (f (entry_pos_x s)) (f (entry_pos_y s))
    (selected_object s) (ready_to_step s)
    (during_query s) (show_info s) (info_frame s) (label_info s) (objects s)
    (active_shape s) (pulling s) (running s) (m_position s).

Definition set_ready_to_step (v : bool) (s : ProjectileMain) : ProjectileMain :=
  mkMain (space s) (heap s) (next_id s) (camera s) (entry_name s) (entry_multiplier s)
    (entry_pos_x s) (entry_pos_y s) (selected_object s) v
    (during_query s) (show_info s) (info_frame s) (label_info s) (objects s)
    (active_shape s) (pulling s) (running s) (m_position s).

Definition set_during_query (v : bool) (s : ProjectileMain) : ProjectileMain :=
  mkMain (space s) (heap s) (next_id s) (camera s) (entry_name s) (entry_multiplier s)
    (entry_pos_x s) (entry_pos_y s) (selected_object s) (ready_to_step s)
    v (show_info s) (info_frame s) (label_info s) (objects s)
    (active_shape s) (pulling s) (running s) (m_position s).

Definition set_show_info (v : bool) (s : ProjectileMain) : ProjectileMain :=
  mkMain (space s) (heap s) (next_id s) (camera s) (entry_name s) (entry_multiplier s)
    (entry_pos_x s) (entry_pos_y s) (selected_object s) (ready_to_step s)
    (during_query s) v (info_frame s) (label_info s) (objects s)
    (active_shape s) (pulling s) (running s) (m_position s).

Definition set_info_frame (v : Z) (s : ProjectileMain) : ProjectileMain :=
  mkMain (space s) (heap s) (next_id s) (camera s) (entry_name s) (entry_multiplier s)
    (entry_pos_x s) (entry_pos_y s) (selected_object s) (ready_to_step s)
    (during_query s) (show_info s) v (label_info s) (objects s)
    (active_shape s) (pulling s) (running s) (m_position s).

Definition set_label_info (v : string) (s : ProjectileMain) : ProjectileMain :=
  mkMain (space s) (heap s) (next_id s) (camera s) (entry_name s) (entry_multiplier s)
    (entry_pos_x s) (entry_pos_y s) (selected_object s) (ready_to_step s)
    (during_query s) (show_info s) (info_frame s) v (objects s)
    (active_shape s) (pulling s) (running s) (m_position s).

Definition set_objects (v : list StaticObstacle) (s : ProjectileMain) : ProjectileMain :=
  mkMain (space s) (heap s) (next_id s) (camera s) (entry_name s) (entry_multiplier s)
    (entry_pos_x s) (entry_pos_y s) (selected_object s) (ready_to_step s)
    (during_query s) (show_info s) (info_frame s) (label_info s) v
    (active_shape s) (pulling s) (running s) (m_position s).

Definition set_active_shape (v : option Shape) (s : ProjectileMain) : ProjectileMain :=
  mkMain (space s) (heap s) (next_id s) (camera s) (entry_name s) (entry_multiplier s)
    (entry_pos_x s) (entry_pos_y s) (selected_object s) (ready_to_step s)
    (during_query s) (show_info s) (info_frame s) (label_info s) (objects s)
    v (pulling s) (running s) (m_position s).

Definition set_pulling (v : bool) (s : ProjectileMain) : ProjectileMain :=
  mkMain (space s) (heap s) (next_id s) (camera s) (entry_name s) (entry_multiplier s)
    (entry_pos_x s) (entry_pos_y s) (selected_object s) (ready_to_step s)
    (during_query s) (show_info s) (info_frame s) (label_info s) (objects s)
    (active_shape s) v (running s) (m_position s).

Definition set_running (v : bool) (s : ProjectileMain) : ProjectileMain :=
  mkMain (space s) (heap s) (next_id s) (camera s) (entry_name s) (entry_multiplier s)
    (entry_pos_x s) (entry_pos_y s) (selected_object s) (ready_to_step s)
    (during_query s) (show_info s) (info_frame s) (label_info s) (objects s)
    (active_shape s) (pulling s) v (m_position s).

Definition set_m_position (v : option Point) (s : ProjectileMain) : ProjectileMain :=
  mkMain (space s) (heap s) (next_id s) (camera s) (entry_name s) (entry_multiplier s)
    (entry_pos_x s) (entry_pos_y s) (selected_object s) (ready_to_step s)
    (during_query s) (show_info s) (info_frame s) (label_info s) (objects s)
    (active_shape s) (pulling s) (running s) v.

(** ** A monad for the methods: state, exceptions and [return] out of the loop *)

Inductive Outcome (A : Type) :=
| Ok (a : A) (st : ProjectileMain)          (* normal completion *)
| Raised (e : Exn) (st : ProjectileMain)    (* an exception escapes *)
| Returned (code : Z) (st : ProjectileMain) (* [mainloop] returns *).

Arguments Ok {A} a st.
Arguments Raised {A} e st.
Arguments Returned {A} code st.

Definition M (A : Type) : Type := ProjectileMain -> Outcome A.

Definition ret {A} (a : A) : M A := fun st => Ok a st.

Definition bind {A B} (m : M A) (k : A -> M B) : M B :=
  fun st =>
    match m st with
    | Ok a st' => k a st'
    | Raised e st' => Raised e st'
    | Returned c st' => Returned c st'
    end.

Definition raise {A} (e : Exn) : M A := fun st => Raised e st.
Definition return_from_mainloop {A} (c : Z) : M A := fun st => Returned c st.
Definition get : M ProjectileMain := fun st => Ok st st.
Definition modify (f : ProjectileMain -> ProjectileMain) : M unit :=
  fun st => Ok tt (f st).

#[global] Instance M_ret : MRet M := @ret.
#[global] Instance M_bind : MBind M := fun A B k m => bind m k.

(** The state an outcome ends in. *)
Definition final_state {A} (o : Outcome A) : ProjectileMain :=
  match o with
  | Ok _ st | Raised _ st | Returned _ st => st
  end.

(** ** Library functions the program calls *)

(** [pymunk.pygame_util.to_pygame(p, surface)]: rounds to pixels and, when
    [positive_y_is_up] is set, flips the vertical axis about the surface
    height.  The surface is the window, of height [SIZE[1]]. *)
Definition to_pygame (ext : Externals) (p : Vec2d) : Point :=
  if positive_y_is_up ext
  then (py_round (vx p), snd (SIZE ext) - py_round (vy p))
  else (py_round (vx p), py_round (vy p)).

(** [pymunk.pygame_util.from_pygame(p, surface)] is [to_pygame(p, surface)]. *)
Definition from_pygame (ext : Externals) (p : Vec2d) : Point :=
  to_pygame ext p.

(** [Vec2d.rotated(angle_radians)] *)
Definition rotated (ext : Externals) (v : Vec2d) (a : Q) : Vec2d :=
  let c := math_cos ext a in
  let s := math_sin ext a in
  mkVec2d (vx v * c - vy v * s)%Q (vx v * s + vy v * c)%Q.

(** [Vec2d.angle]: zero for the null vector, [atan2(y, x)] otherwise. *)
Definition vec_angle (ext : Externals) (v : Vec2d) : Q :=
  if Qeq_bool (vx v * vx v + vy v * vy v) 0 then 0%Q
  else math_atan2 ext (vy v) (vx v).

(** Reading and writing a body through a reference to it. *)
Definition deref (st : ProjectileMain) (b : nat) : Body := heap st !!! b.

Definition update_body (b : nat) (f : Body -> Body) : M unit :=
  modify (fun st => set_heap (<[b := f (deref st b)]> (heap st)) st).

Definition with_angle (a : Q) (b : Body) : Body :=
  mkBody (position b) a (body_type b) (shapes b) (impulses b).

(** [Body.apply_impulse_at_local_point(impulse)], with the default point
    [(0, 0)]: the call is recorded on the body. *)
Definition apply_impulse_at_local_point (j : Vec2d) (b : Body) : Body :=
  mkBody (position b) (angle b) (body_type b) (shapes b) (j :: impulses b).

Definition nat_inb (n : nat) (l : list nat) : bool := existsb (Nat.eqb n) l.

Definition remove_nat (n : nat) (l : list nat) : list nat :=
  filter (fun m => negb (Nat.eqb n m)) l.

(** [Space.add(body, shape)]: the engine asserts that neither was added
    before. *)
Definition space_add (body : nat) (shape : Shape) : M unit :=
  st ← get;
  if nat_inb body (space_bodies (space st))
     || nat_inb (shape_id shape) (space_shapes (space st))
  then raise AssertionError
  else modify (set_space
         (mkSpace (space_bodies (space st) ++ [body])
                  (space_shapes (space st) ++ [shape_id shape]))).

(** [Space.remove(shape, body)]: the engine asserts that both are in the
    space; the shape goes first. *)
Definition space_remove (shape : Shape) (body : nat) : M unit :=
  st ← get;
  if negb (nat_inb (shape_id shape) (space_shapes (space st)))
  then raise AssertionError
  else
    modify (fun st => set_space
      (mkSpace (space_bodies (space st))
               (remove_nat (shape_id shape) (space_shapes (space st)))) st);;
    if negb (nat_inb body (space_bodies (space st)))
    then raise AssertionError
    else
      modify (fun st => set_space
        (mkSpace (remove_nat body (space_bodies (space st)))
                 (space_shapes (space st))) st).

(** Modelled from the spec: the [Projectile] class ([projectile/includes/sprites.py]
    is not part of the sources).  Spec section 3, SimBody: a dynamic body at
    the given position with exactly one attached shape. *)
Definition Projectile (position : Point) (radius : Z) : M (nat * Shape) :=
  st ← get;
  let b := next_id st in
  let shape := mkShape (S b) b (inject_Z radius) in
  modify (set_next_id (S (S b)));;
  modify (fun st =>
    set_heap (<[b := mkBody (vec_of_point position) 0 DYNAMIC [shape] []]>
                (heap st)) st);;
  mret (b, shape).

(** Modelled from the spec: the constructor of [StaticObstacle]
    ([projectile/includes/sprites.py] is not part of the sources).  Spec
    section 4.5: the shape of the given kind at the given position,
    registered as static. *)
Definition new_StaticObstacle (name : string) (position : Point)
    (kind : string) (size : SizeParam) : M StaticObstacle :=
  st ← get;
  let b := next_id st in
  let r := match size with Radius r => r | Multiplier m => m end in
  let shape := mkShape (S b) b (inject_Z r) in
  modify (set_next_id (S (S b)));;
  modify (fun st =>
    set_heap (<[b := mkBody (vec_of_point position) 0 STATIC [shape] []]>
                (heap st)) st);;
  mret (mkStaticObstacle name kind size b shape).

(** ** The pointer mappings *)

Definition offset (cam : Camera) : Vec2d := mkVec2d (x_offset cam) (y_offset cam).

(** Lines 306-312 (and 272-278, 329-335): the simulation point under a
    screen position,
    [from_pygame(tuple(np.subtract(p, (x_offset, y_offset))), screen)].
    The difference is a double when [round] gets it. *)
Definition pointer_to_world (ext : Externals) (cam : Camera) (p : Point) : Point :=
  from_pygame ext (np_subtract (vec_of_point p) (offset cam)).

(** Lines 353-359: the screen position of a simulation point,
    [to_pygame(tuple(np.add(w, (x_offset, y_offset))), screen)]; the sum
    is a double as well. *)
Definition world_to_pointer (ext : Externals) (cam : Camera) (w : Vec2d) : Point :=
  to_pygame ext (np_add w (offset cam)).

(** Lines 350-359: where the selection overlay is drawn. *)
Definition overlay_position (ext : Externals) (st : ProjectileMain) : option Point :=
  match active_shape st with
  | None => None
  | Some shape =>
      Some (world_to_pointer ext (camera st)
              (position (deref st (shape_body shape))))
  end.

(** ** Event handlers *)

Definition any_entry_busy (st : ProjectileMain) : bool :=
  existsb get_status (entries st).

(** Lines 313-324, the loop over [self.__space.bodies]. *)
Fixpoint hit_test_loop (ext : Externals) (pg_position : Point)
    (bodies : list nat) : M unit :=
  match bodies with
  | [] => mret tt
  | body :: rest =>
      st ← get;
      (if BodyType_eqb (body_type (deref st body)) DYNAMIC then
         match shapes (deref st body) with
         | [] => raise IndexError
         | shape :: _ =>
             modify (set_during_query true);;
             st ← get;
             match point_query ext (deref st (shape_body shape)) shape pg_position with
             | None => raise EngineError
             | Some distance =>
                 modify (set_during_query false);;
                 if Qltb distance 0 then
                   modify (set_active_shape (Some shape));;
                   modify (set_pulling true);;
                   st ← get;
                   update_body (shape_body shape)
                     (with_angle
                        (vec_angle ext
                           (vec_sub (vec_of_point pg_position)
                              (position (deref st (shape_body shape))))))
                 else mret tt
             end
         end
       else mret tt);;
      hit_test_loop ext pg_position rest
  end.

(** Lines 305-324, the [MOUSEBUTTONDOWN] branch. *)
Definition on_mousebuttondown (ext : Externals) (ev : Event) : M unit :=
  st ← get;
  let pg_position := pointer_to_world ext (camera st) (mouse_get_pos ev) in
  modify (set_active_shape None);;
  hit_test_loop ext pg_position (space_bodies (space st)).

(** Lines 339-341: the impulse of a release, from the body's position and
    angle and the release point. *)
Definition launch_impulse (ext : Externals) (point1 : Vec2d) (body_angle : Q)
    (point2 : Point) : Vec2d :=
  vec_scale (inject_Z impulse)
    (rotated ext (vec_sub point1 (vec_of_point point2)) (- body_angle)%Q).

(** Lines 329-339: the release point of a [MOUSEBUTTONUP] at [pos]; the
    position goes through [from_pygame] twice. *)
Definition release_point (ext : Externals) (cam : Camera) (pos : Point) : Point :=
  let new_event_pos := pointer_to_world ext cam pos in
  from_pygame ext (vec_of_point new_event_pos).

(** Lines 327-342, the [MOUSEBUTTONUP] branch. *)
Definition on_mousebuttonup (ext : Externals) (ev : Event) : M unit :=
  st ← get;
  if pulling st then
    let point2 := release_point ext (camera st) (pos ev) in
    modify (set_pulling false);;
    match active_shape st with
    | None => raise AttributeError
    | Some shape =>
        let active_body := shape_body shape in
        let point1 := position (deref st active_body) in
        let j := launch_impulse ext point1 (angle (deref st active_body)) point2 in
        update_body active_body (apply_impulse_at_local_point j)
    end
  else mret tt.

(** Lines 269-280, [__create_projectile]. *)
Definition create_projectile (ext : Externals) (ev : Event) : M unit :=
  st ← get;
  if any_entry_busy st then mret tt
  else
    let pg_position := pointer_to_world ext (camera st) (mouse_get_pos ev) in
    p ← Projectile pg_position 20;
    space_add (fst p) (snd p).

(** Lines 295-304, the [KEYDOWN] branch. *)
Definition on_keydown (ext : Externals) (key : Key) (ev : Event) : M unit :=
  match key with
  | K_ESCAPE =>
      modify (set_running false);;
      return_from_mainloop 0
  | K_c => create_projectile ext ev
  | K_BACKSPACE =>
      st ← get;
      match active_shape st with
      | Some shape =>
          space_remove shape (shape_body shape);;
          modify (set_active_shape None)
      | None => mret tt
      end
  | _ => mret tt
  end.

(** Lines 292-342, the body of the loop over the events of a frame. *)
Definition handle_event (ext : Externals) (ev : Event) : M unit :=
  modify (set_entries (handle_entry_events ext ev));;
  match etype ev with
  | KEYDOWN key => on_keydown ext key ev
  | MOUSEBUTTONDOWN => on_mousebuttondown ext ev
  | MOUSEMOTION => modify (set_m_position (Some (pos ev)))
  | MOUSEBUTTONUP => on_mousebuttonup ext ev
  | _ => mret tt
  end.

Fixpoint handle_events (ext : Externals) (evs : list Event) : M unit :=
  match evs with
  | [] => mret tt
  | ev :: rest => handle_event ext ev;; handle_events ext rest
  end.

(** ** Widgets' values *)

(** Modelled from the spec: [Entry.get] ([includes/entry.py] is not part of
    the sources).  Spec section 6: [get() -> string] and
    [get(as: numeric-type) -> number]; the numeric fields accept digits
    only. *)
Definition entry_get (e : Entry) : string := text e.

Definition digit_of_ascii (c : Ascii.ascii) : option Z :=
  let n := Z.of_nat (Ascii.nat_of_ascii c) in
  if (48 <=? n) && (n <=? 57) then Some (n - 48) else None.

Fixpoint parse_digits (acc : Z) (s : string) : option Z :=
  match s with
  | EmptyString => Some acc
  | String c r =>
      match digit_of_ascii c with
      | Some d => parse_digits (10 * acc + d) r
      | None => None
      end
  end.

Definition entry_get_int (e : Entry) : M Z :=
  match text e with
  | EmptyString => raise ValueError
  | s => match parse_digits 0 s with
         | Some z => mret z
         | None => raise ValueError
         end
  end.

(** [bool(s)] for a Python string. *)
Definition py_bool_str (s : string) : bool :=
  match s with EmptyString => false | _ => true end.

Definition dquote : string := String (Ascii.ascii_of_nat 34) EmptyString.

Definition msg_create_busy : string :=
  "Can not create object during space step or query".
Definition msg_remove_busy : string :=
  "Can not remove object during space step or query".
Definition msg_fill_all : string := "Please fill all the fields".
Definition msg_fill_name : string :=
  String.append "Please fill "
    (String.append dquote (String.append "name" (String.append dquote " field"))).

(** [Label.config]: sets the text of the label (the source passes it by
    keyword on some paths and as first positional argument on others). *)
Definition label_info_config (s : string) : M unit := modify (set_label_info s).

(** ** Creating and removing tracked obstacles *)

(** Lines 194-216, [__create]. *)
Definition create (shape : string) : M unit :=
  st ← get;
  if ready_to_step st || during_query st then
    modify (set_show_info true);;
    label_info_config msg_create_busy
  else if negb (ready_to_step st) && negb (during_query st) then
    if existsb (fun entry => negb (py_bool_str (entry_get entry))) (entries st) then
      modify (set_show_info true);;
      label_info_config msg_fill_all
    else
      x ← entry_get_int (entry_pos_x st);
      y ← entry_get_int (entry_pos_y st);
      m ← entry_get_int (entry_multiplier st);
      tmp_object ← new_StaticObstacle (entry_get (entry_name st)) (x, y) shape
        (if String.eqb (selected_object st) "Circle" then Radius m else Multiplier m);
      modify (fun st => set_objects (objects st ++ [tmp_object]) st);;
      modify (set_show_info false);;
      label_info_config "";;
      space_add (obstacle_body tmp_object) (obstacle_shape tmp_object)
  else mret tt.

(** [list.remove(x)] for objects compared by identity: drops the first
    occurrence. *)
Fixpoint list_remove (x : StaticObstacle) (l : list StaticObstacle)
    : list StaticObstacle :=
  match l with
  | [] => []
  | y :: r =>
      if Nat.eqb (obstacle_body x) (obstacle_body y) then r
      else y :: list_remove x r
  end.

(** Lines 230-233, [for object in self.__objects] with the list changed
    inside the loop: the list iterator keeps an index into the live list
    and stops once the index is past its end.  The indices it can visit
    are those of the list at loop entry. *)
Fixpoint remove_loop (indices : list nat) (remove_name : string) : M unit :=
  match indices with
  | [] => mret tt
  | i :: rest =>
      st ← get;
      match objects st !! i with
      | None => mret tt
      | Some object =>
          (if String.eqb (name object) remove_name then
             space_remove (obstacle_shape object) (obstacle_body object);;
             modify (fun st => set_objects (list_remove object (objects st)) st)
           else mret tt);;
          remove_loop rest remove_name
      end
  end.

(** Lines 218-233, [__remove]. *)
Definition remove : M unit :=
  st ← get;
  if ready_to_step st || during_query st then
    modify (set_show_info true);;
    label_info_config msg_remove_busy
  else if negb (ready_to_step st) && negb (during_query st) then
    if negb (py_bool_str (entry_get (entry_name st))) then
      modify (set_show_info true);;
      label_info_config msg_fill_name
    else
      modify (set_show_info false);;
      label_info_config "";;
      let remove_name := entry_get (entry_name st) in
      remove_loop (seq 0 (length (objects st))) remove_name
  else mret tt.

(** What the user is told after a button command: the text of the info
    label when it is shown. *)
Definition reported (st : ProjectileMain) : option string :=
  if show_info st then Some (label_info st) else None.

(** ** The frame loop *)

(** Lines 256-267, [__handle_camera_movement].  The transform handed to
    the renderer is a function of the camera and is not kept in the state. *)
Definition handle_camera_movement (ext : Externals) (keys : list Key) : M unit :=
  st ← get;
  if any_entry_busy st then mret tt
  else modify (set_camera (compute_translation_and_scaling ext keys (camera st))).

(** Lines 162-166 of [__draw_widgets]: the timer of the info label. *)
Definition draw_widgets (ext : Externals) : M unit :=
  st ← get;
  if show_info st then
    modify (set_info_frame (info_frame st + 1));;
    if FPS ext * 3 <=? info_frame st + 1
    then modify (set_show_info false)
    else mret tt
  else mret tt.

(** What one pass of the [while] loop reads: whether a [QUIT] is pending,
    the events of the queue and the held keys. *)
Record FrameInput := mkFrameInput {
  frame_events : list Event;
  frame_keys : list Key
}.

Definition is_quit (ev : Event) : bool :=
  match etype ev with QUIT => true | _ => false end.

(** Lines 350-363, the selection overlay: a circle around the selected
    shape at [overlay_position], computed with the camera as line 346 left
    it, and while [pulling] is set a line from there to the last pointer
    position and a circle around that.  Drawing changes no attribute; the
    pointer position is [self.__m_position], which only a [MOUSEMOTION]
    assigns (line 326): reading it before the first one raises
    [AttributeError]. *)
Definition draw_overlay (ext : Externals) : M unit :=
  st ← get;
  match overlay_position ext st with
  | None => mret tt
  | Some pg_position =>
      if pulling st then
        match m_position st with
        | None => raise AttributeError
        | Some _ => mret tt
        end
      else mret tt
  end.

(** Lines 288-368, one pass of the [while] loop. *)
Definition frame (ext : Externals) (inp : FrameInput) : M unit :=
  if existsb is_quit (frame_events inp) then
    modify (set_running false);;
    return_from_mainloop 0
  else
    handle_events ext (frame_events inp);;
    modify (set_ready_to_step true);;
    handle_camera_movement ext (frame_keys inp);;
    draw_widgets ext;;
    draw_overlay ext;;
    modify (fun st => set_heap (space_step ext (space st) (heap st)) st);;
    modify (set_ready_to_step false).

(** Lines 282-368, [mainloop] on the inputs of successive frames. *)
Fixpoint mainloop (ext : Externals) (inputs : list FrameInput) : M unit :=
  match inputs with
  | [] => mret tt
  | inp :: rest =>
      st ← get;
      if running st then frame ext inp;; mainloop ext rest
      else mret tt
  end.

(** ** The state after [__init__] *)

(** Lines 84-118.  The boundary segments hang on the space's static body,
    which is not among [space.bodies]; the first projectile is at
    [(100, 100)]. *)
Definition initial_projectile_shape : Shape := mkShape 1 0 25.

Definition init : ProjectileMain :=
  mkMain (mkSpace [0%nat] [1%nat])
    {[ 0%nat := mkBody (mkVec2d 100 100) 0 DYNAMIC [initial_projectile_shape] [] ]}
    2 (mkCamera 0 0 1 0)
    (mkEntry "" false) (mkEntry "" false) (mkEntry "" false) (mkEntry "" false)
    "Circle" false false false 0 "" [] None false true None.

(** ** A concrete environment, for running the model

    The library's defaults ([positive_y_is_up] is off), a 600 by 600 window
    at 60 frames per second, circles for the point queries, an engine step
    and a camera that leave everything in place, entries that keep their
    state, and low-order rational approximations of the trigonometric
    functions (exact at 0). *)

Definition taylor_cos (x : Q) : Q := (1 - x * x / 2 + x * x * x * x / 24)%Q.
Definition taylor_sin (x : Q) : Q := (x - x * x * x / 6)%Q.
Definition crude_atan2 (y x : Q) : Q :=
  if Qltb 0 x then (y / x)%Q
  else if Qltb x 0 then (if Qltb y 0 then y / x - 3 else y / x + 3)%Q
  else if Qltb 0 y then (3 # 2)%Q
  else if Qltb y 0 then (- (3 # 2))%Q
  else 0%Q.

(** A number with the sign of the distance from [p] to the circle of radius
    [radius s] centred on the body: negative exactly when [p] is strictly
    inside. *)
Definition circle_point_query (b : Body) (s : Shape) (p : Point) : option Q :=
  let d := vec_sub (vec_of_point p) (position b) in
  Some (vx d * vx d + vy d * vy d - radius s * radius s)%Q.

Definition sample_ext : Externals :=
  mkExternals false (600, 600) 60 taylor_cos taylor_sin crude_atan2
    circle_point_query (fun _ h => h) (fun _ e => e) (fun _ c => c).

(** The same environment with a point query that raises. *)
Definition raising_ext : Externals :=
  mkExternals false (600, 600) 60 taylor_cos taylor_sin crude_atan2
    (fun _ _ _ => None) (fun _ h => h) (fun _ e => e) (fun _ c => c).

(** The same environment with the vertical axis flipped, as in the
    library before version 6. *)
Definition flipped_ext : Externals :=
  mkExternals true (600, 600) 60 taylor_cos taylor_sin crude_atan2
    circle_point_query (fun _ h => h) (fun _ e => e) (fun _ c => c).

(** ** Concrete scenarios *)

(** The first projectile moved to the origin of the simulation, selected
    and being pulled, under a camera panned by [(300, 300)]. *)
Definition body_at_origin : Body :=
  mkBody (mkVec2d 0 0) 0 DYNAMIC [initial_projectile_shape] [].

Definition aiming_at_origin : ProjectileMain :=
  set_pulling true
    (set_active_shape (Some initial_projectile_shape)
       (set_camera (mkCamera 300 300 1 0)
          (set_heap {[ 0%nat := body_at_origin ]} init))).

(** The button is released ten pixels left of the body. *)
Definition release_left : Event := mkEvent MOUSEBUTTONUP (290, 300) (290, 300).

(** A press of the mouse button on the first projectile. *)
Definition click_projectile : Event := mkEvent MOUSEBUTTONDOWN (100, 100) (100, 100).

(** [c] is pressed with the pointer at [(110, 100)]: a second projectile
    appears there, overlapping the first. *)
Definition spawn_projectile : Event := mkEvent (KEYDOWN K_c) (0, 0) (110, 100).

Definition two_projectiles : ProjectileMain :=
  final_state (handle_event sample_ext spawn_projectile init).

(** A press between the two centres, inside both circles. *)
Definition click_overlap : Event := mkEvent MOUSEBUTTONDOWN (105, 100) (105, 100).

(** The form of the menu filled in: a circle named A of radius 10 at
    [(50, 50)]. *)
Definition fill_form (n m x y : string) (s : ProjectileMain) : ProjectileMain :=
  mkMain (space s) (heap s) (next_id s) (camera s)
    (mkEntry n (status (entry_name s)))
    (mkEntry m (status (entry_multiplier s)))
    (mkEntry x (status (entry_pos_x s)))
    (mkEntry y (status (entry_pos_y s)))
    (selected_object s) (ready_to_step s)
    (during_query s) (show_info s) (info_frame s) (label_info s) (objects s)
    (active_shape s) (pulling s) (running s) (m_position s).

Definition form_filled : ProjectileMain := fill_form "A" "10" "50" "50" init.

(** ... after Create, after Remove, and after a second Remove. *)
Definition created_A : ProjectileMain := final_state (create "Circle" form_filled).
Definition removed_A : ProjectileMain := final_state (remove created_A).

(** The name field has the focus. *)
Definition focus_name (s : ProjectileMain) : ProjectileMain :=
  mkMain (space s) (heap s) (next_id s) (camera s)
    (mkEntry (text (entry_name s)) true)
    (entry_multiplier s) (entry_pos_x s) (entry_pos_y s)
    (selected_object s) (ready_to_step s)
    (during_query s) (show_info s) (info_frame s) (label_info s) (objects s)
    (active_shape s) (pulling s) (running s) (m_position s).

Definition typing : ProjectileMain := focus_name init.

(** Backspace, and the release of the mouse button. *)
Definition press_backspace : Event := mkEvent (KEYDOWN K_BACKSPACE) (0, 0) (100, 100).
Definition release_button : Event := mkEvent MOUSEBUTTONUP (60, 100) (60, 100).

(** ** Vocabulary of the properties *)



(** Screen to simulation and back. *)
Definition round_trip (ext : Externals) (cam : Camera) (p : Point) : Point :=
  world_to_pointer ext cam (vec_of_point (pointer_to_world ext cam p)).

(** The magnitudes up to which the properties of the pointer mappings are
    stated: up to [2^49] the sums and differences of the mappings stay below
    [2^51], where doubles lie at most a quarter apart. *)
Definition pixel_range : Z := 2 ^ 49.

(** A float of at most that magnitude. *)
Definition in_pixel_range (q : Q) : Prop := (Qabs q <= inject_Z pixel_range)%Q.


(** The shape the hit test finds on one body of the store [h]: the first
    shape of a dynamic body whose point query answers a negative distance. *)
Definition hit (ext : Externals) (h : gmap nat Body) (p : Point) (b : nat)
    : option Shape :=
  if BodyType_eqb (body_type (h !!! b)) DYNAMIC then
    match shapes (h !!! b) with
    | shape :: _ =>
        match point_query ext (h !!! shape_body shape) shape p with
        | Some distance => if Qltb distance 0 then Some shape else None
        | None => None
        end
    | [] => None
    end
  else None.

(** All the shapes that contain the point, in iteration order. *)
Definition hits (ext : Externals) (h : gmap nat Body) (p : Point)
    (bodies : list nat) : list Shape :=
  omap (hit ext h p) bodies.

(** The engine's invariant on the bodies of a list: the first shape of a
    body is attached to that body. *)
Definition first_shape_attached (h : gmap nat Body) (bodies : list nat) : Prop :=
  forall b s, In b bodies -> head (shapes (h !!! b)) = Some s -> shape_body s = b.

Definition is_EngineError (e : Exn) : bool :=
  match e with EngineError => true | _ => false end.

(** The store of [st] is that of [st0] up to the angles of the bodies. *)
Definition angles_only (st0 st : ProjectileMain) : Prop :=
  forall b, exists a, deref st b = with_angle a (deref st0 b).

(** Unfolding the monad of the methods. *)
Ltac run_monad :=
  cbv [mbind M_bind bind get modify mret M_ret ret raise return_from_mainloop
       update_body].

(** ** Further vocabulary *)

(** The loop stopped on [e] in state [st] with the step guard set: the
    overlay read a pointer position that was never assigned. *)
Definition guard_left_set (e : Exn) (st : ProjectileMain) : Prop :=
  e = AttributeError /\ ready_to_step st = true /\
  is_Some (active_shape st) /\ pulling st = true /\ m_position st = None.

(** [__draw_widgets] called on [n] successive frames. *)
Fixpoint draw_widgets_times (ext : Externals) (n : nat) : M unit :=
  match n with
  | O => mret tt
  | S k => draw_widgets ext;; draw_widgets_times ext k
  end.

(** What a handler that only turns bodies leaves alone: the space, the
    tracked objects, the camera, and every body up to its angle. *)
Definition turned_only (st0 st : ProjectileMain) : Prop :=
  space st = space st0 /\ objects st = objects st0 /\ camera st = camera st0 /\
  angles_only st0 st.

(** A press of the mouse button away from every projectile. *)
Definition click_empty_space : Event := mkEvent MOUSEBUTTONDOWN (500, 500) (500, 500).


(** Create pressed a second time on the same form: two circles named A. *)
Definition created_AA : ProjectileMain := final_state (create "Circle" created_A).

(** ** The menu: object selector and visibility buttons *)

Definition set_selected_object (v : string) (s : ProjectileMain) : ProjectileMain :=
  mkMain (space s) (heap s) (next_id s) (camera s) (entry_name s) (entry_multiplier s)
    (entry_pos_x s) (entry_pos_y s) v (ready_to_step s)
    (during_query s) (show_info s) (info_frame s) (label_info s) (objects s)
    (active_shape s) (pulling s) (running s) (m_position s).

(** The widgets of the menu that [main.py] reconfigures, next to the
    state: [object_queue] holds the names of the members of
    [ObjectSelector] in the order of the deque; the other fields are the
    texts and the command argument the methods set, and the two visibility
    flags. *)
Record Menu := mkMenu {
  object_queue : list string;
  label_object_name : string;
  btn_create_text : string;
  btn_create_args : string;
  is_menu_visible : bool;
  is_description_visible : bool;
  btn_menu_visibility : string;
  btn_description_visibility : string
}.

(** [deque.rotate(1)]: the last element comes to the front. *)
Definition rotate_right (q : list string) : list string :=
  match last q with
  | Some x => x :: removelast q
  | None => []
  end.

(** [deque.rotate(-1)]: the first element goes to the end. *)
Definition rotate_left (q : list string) : list string :=
  match q with
  | [] => []
  | x :: r => r ++ [x]
  end.

(** Lines 184-187, [__update_create_button]. *)
Definition update_create_button (sel : string) (q : list string) (m : Menu) : Menu :=
  mkMenu q sel (String.append "Create " sel) sel
    (is_menu_visible m) (is_description_visible m)
    (btn_menu_visibility m) (btn_description_visibility m).

(** The common part of lines 189-192 and 235-238: [self.__object_queue[0]]
    raises [IndexError] ([None]) on an empty deque. *)
Definition select_head (q : list string) (sm : ProjectileMain * Menu)
    : option (ProjectileMain * Menu) :=
  match q with
  | [] => None
  | x :: _ => Some (set_selected_object x (fst sm), update_create_button x q (snd sm))
  end.

(** Lines 189-192, [__previous_object]. *)
Definition previous_object (sm : ProjectileMain * Menu) : option (ProjectileMain * Menu) :=
  select_head (rotate_right (object_queue (snd sm))) sm.

(** Lines 235-238, [__next_object]. *)
Definition next_object (sm : ProjectileMain * Menu) : option (ProjectileMain * Menu) :=
  select_head (rotate_left (object_queue (snd sm))) sm.

(** [__next_object] called [n] times. *)
Fixpoint next_object_times (n : nat) (sm : ProjectileMain * Menu)
    : option (ProjectileMain * Menu) :=
  match n with
  | O => Some sm
  | S k => match next_object sm with
           | Some sm' => next_object_times k sm'
           | None => None
           end
  end.

(** Lines 240-246, [__toggle_menu_visibility]. *)
Definition toggle_menu_visibility (m : Menu) : Menu :=
  if is_menu_visible m
  then mkMenu (object_queue m) (label_object_name m) (btn_create_text m)
         (btn_create_args m) false (is_description_visible m)
         "Expand" (btn_description_visibility m)
  else mkMenu (object_queue m) (label_object_name m) (btn_create_text m)
         (btn_create_args m) true (is_description_visible m)
         "Collapse" (btn_description_visibility m).

(** Lines 248-254, [__toggle_desc_visibility]. *)
Definition toggle_desc_visibility (m : Menu) : Menu :=
  if is_description_visible m
  then mkMenu (object_queue m) (label_object_name m) (btn_create_text m)
         (btn_create_args m) (is_menu_visible m) false
         (btn_menu_visibility m) "Show Description"
  else mkMenu (object_queue m) (label_object_name m) (btn_create_text m)
         (btn_create_args m) (is_menu_visible m) true
         (btn_menu_visibility m) "Hide Description".

(** Lines 100-102 and 120-147: the menu after [__init__] and
    [init_widgets], for a given enumeration. *)
Definition init_menu (selector : list string) : Menu :=
  mkMenu selector "Circle" "Create Circle" "Circle" true false
    "Collapse Menu" "Show Descriptions".

(** A sample enumeration. *)
Definition sample_selector : list string :=
  ["Square"; "Rectangle"; "Triangle"; "Circle"]%string.

(** What a press at [p] makes of body [b] of the store [h]: a body whose
    shape is hit is turned to face [p], any other body stays as it is. *)
Definition faced (ext : Externals) (h : gmap nat Body) (p : Point) (b : nat) : Body :=
  match hit ext h p b with
  | Some _ =>
      with_angle (vec_angle ext (vec_sub (vec_of_point p) (position (h !!! b))))
        (h !!! b)
  | None => h !!! b
  end.

(** Escape. *)
Definition press_escape : Event := mkEvent (KEYDOWN K_ESCAPE) (0, 0) (0, 0).

(** ** Well-formed states

    Identities are numbers handed out by [next_id]; the constructors of the
    model give the shape of body [b] the identity [S b].  A state is well
    formed when the space lists each body and each shape once, all
    identities in use are below [next_id], every body of the space carries
    exactly one shape, attached to it and itself in the space, the
    selected shape is the shape of a dynamic body of the space, and the
    tracked objects are distinct static bodies of the space. *)

Definition wf_store (sp : Space) (h : gmap nat Body) (n : nat) : Prop :=
  NoDup (space_bodies sp) /\ NoDup (space_shapes sp) /\
  (forall b, b ∈ space_bodies sp -> (b < n)%nat) /\
  (forall s, s ∈ space_shapes sp -> (s < n)%nat) /\
  (forall b, b ∈ space_bodies sp ->
     S b ∈ space_shapes sp /\ exists r, shapes (h !!! b) = [mkShape (S b) b r]).

Definition wf_selection (sp : Space) (h : gmap nat Body) (act : option Shape) : Prop :=
  forall s, act = Some s ->
    shape_body s ∈ space_bodies sp /\
    shapes (h !!! shape_body s) = [s] /\
    body_type (h !!! shape_body s) = DYNAMIC.

Definition wf_objects (sp : Space) (h : gmap nat Body)
    (objs : list StaticObstacle) : Prop :=
  NoDup (obstacle_body <$> objs) /\
  forall o, o ∈ objs ->
    obstacle_body o ∈ space_bodies sp /\
    shapes (h !!! obstacle_body o) = [obstacle_shape o] /\
    body_type (h !!! obstacle_body o) = STATIC.

Definition well_formed (st : ProjectileMain) : Prop :=
  wf_store (space st) (heap st) (next_id st) /\
  wf_selection (space st) (heap st) (active_shape st) /\
  wf_objects (space st) (heap st) (objects st).

(** Two stores that give every body the same shapes and the same type. *)
Definition same_kinds (h h' : gmap nat Body) : Prop :=
  forall b, shapes (h' !!! b) = shapes (h !!! b) /\
            body_type (h' !!! b) = body_type (h !!! b).


(** Projections of the state after assignments. *)
Ltac simpl_fields :=
  cbn [space heap next_id camera objects active_shape pulling running
       ready_to_step during_query show_info info_frame label_info m_position
       entry_name entry_multiplier entry_pos_x entry_pos_y selected_object
       set_space set_heap set_next_id set_camera set_entries set_ready_to_step
       set_during_query set_show_info set_info_frame set_label_info
       set_objects set_active_shape set_pulling set_running set_m_position
       space_bodies space_shapes].

(** * Properties *)

(** ** Rounding *)

Section Rounding.

Local Open Scope Q_scope.

Lemma inject_Z_succ (z : Z) : inject_Z (z + 1) == inject_Z z + 1.
Proof. rewrite inject_Z_plus. reflexivity. Qed.

Lemma inject_Z_pred (z : Z) : inject_Z (z - 1) == inject_Z z - 1.
Proof.
  replace (z - 1)%Z with (z + -1)%Z by lia.
  rewrite inject_Z_plus. reflexivity.
Qed.

Lemma Qfloor_unique (q : Q) (z : Z) :
  inject_Z z <= q -> q < inject_Z (z + 1) -> Qfloor q = z.
Proof.
  intros Hlo Hhi.
  pose proof (Qfloor_le q) as Hfl.
  pose proof (Qlt_floor q) as Hfu.
  assert (H1 : (Qfloor q < z + 1)%Z).
  { rewrite Zlt_Qlt. eapply Qle_lt_trans; eassumption. }
  assert (H2 : (z < Qfloor q + 1)%Z).
  { rewrite Zlt_Qlt. eapply Qle_lt_trans; eassumption. }
  lia.
Qed.

(** A number strictly closer than one half to an integer rounds to it. *)
Lemma py_round_near (q : Q) (z : Z) :
  inject_Z z - (1 # 2) < q -> q < inject_Z z + (1 # 2) -> py_round q = z.
Proof.
  intros Hlo Hhi.
  destruct (Qlt_le_dec q (inject_Z z)) as [Hlt | Hge].
  - assert (Hf : Qfloor q = (z - 1)%Z).
    { apply Qfloor_unique.
      - rewrite inject_Z_pred. lra.
      - replace (z - 1 + 1)%Z with z by lia. exact Hlt. }
    unfold py_round. rewrite Hf.
    assert (Hc : (q - inject_Z (z - 1) ?= 1 # 2) = Gt).
    { rewrite <- Qgt_alt. rewrite inject_Z_pred. lra. }
    rewrite Hc. lia.
  - assert (Hf : Qfloor q = z).
    { apply Qfloor_unique; [exact Hge |].
      rewrite inject_Z_succ. lra. }
    unfold py_round. rewrite Hf.
    assert (Hc : (q - inject_Z z ?= 1 # 2) = Lt).
    { rewrite <- Qlt_alt. lra. }
    now rewrite Hc.
Qed.

(** [round] of a whole number is that number. *)
Lemma py_round_inject_Z (z : Z) : py_round (inject_Z z) = z.
Proof. apply py_round_near; lra. Qed.

(** [round] moves no number by more than one half. *)
Lemma py_round_half_bound (q : Q) :
  - (1 # 2) <= q - inject_Z (py_round q) /\ q - inject_Z (py_round q) <= 1 # 2.
Proof.
  pose proof (Qfloor_le q) as Hfl.
  pose proof (Qlt_floor q) as Hfu.
  rewrite inject_Z_succ in Hfu.
  unfold py_round.
  destruct (q - inject_Z (Qfloor q) ?= 1 # 2) eqn:Hc.
  - rewrite <- Qeq_alt in Hc.
    destruct (Z.even (Qfloor q)); [| rewrite inject_Z_succ]; lra.
  - rewrite <- Qlt_alt in Hc. lra.
  - rewrite <- Qgt_alt in Hc. rewrite inject_Z_succ. lra.
Qed.

End Rounding.

(** ** Rounding to the nearest double *)

Section Float64.

Local Open Scope Q_scope.

Lemma pow2_pos (k : Z) : 0 < 2 ^ k.
Proof. apply Qpower_0_lt. reflexivity. Qed.

Lemma pow2_le (k k' : Z) : (k <= k')%Z -> 2 ^ k <= 2 ^ k'.
Proof. intros H. apply Qpower_le_compat_l; [exact H | discriminate]. Qed.

Lemma pow2_inject (k : Z) : (0 <= k)%Z -> 2 ^ k == inject_Z (2 ^ k).
Proof. intros H. rewrite Zpower_Qpower by exact H. reflexivity. Qed.

(** The binade found is not above the number. *)
Lemma binade_le (a : Q) : 0 < a -> 2 ^ binade a <= a.
Proof.
  intros Ha. unfold binade.
  destruct (Qle_bool (2 ^ (Z.log2 (Qnum a) - Z.log2 (Z.pos (Qden a)))) a) eqn:Hc.
  - apply Qle_bool_iff. exact Hc.
  - clear Hc. destruct a as [n d]. cbn [Qnum Qden].
    assert (Hn : (0 < n)%Z).
    { unfold Qlt in Ha. cbn in Ha. lia. }
    destruct (Z.log2_spec n Hn) as [Hn1 _].
    destruct (Z.log2_spec (Z.pos d) (Pos2Z.is_pos d)) as [_ Hd2].
    pose proof (Z.log2_nonneg n) as Hln.
    pose proof (Z.log2_nonneg (Z.pos d)) as Hld.
    set (ln := Z.log2 n) in *. set (ld := Z.log2 (Z.pos d)) in *.
    rewrite (Qmake_Qdiv n d).
    apply Qle_shift_div_l.
    { replace 0 with (inject_Z 0) by reflexivity. rewrite <- Zlt_Qlt. lia. }
    apply Qle_trans with (2 ^ (ln - ld - 1) * 2 ^ (Z.succ ld)).
    { apply Qmult_le_l; [apply pow2_pos |].
      rewrite (pow2_inject (Z.succ ld)) by lia.
      rewrite <- Zle_Qle. lia. }
    rewrite <- Qpower_plus by discriminate.
    replace (ln - ld - 1 + Z.succ ld)%Z with ln by lia.
    rewrite (pow2_inject ln) by lia.
    rewrite <- Zle_Qle. exact Hn1.
Qed.

(** Below [2^51] doubles lie at most a quarter apart: rounding a result to
    the nearest double moves it by an eighth at most. *)
Lemma float64_error (q : Q) :
  Qabs q < 2 ^ 51 -> Qabs (float64 q - q) <= 1 # 8.
Proof.
  intros Hb. unfold float64.
  destruct (Qeq_bool q 0) eqn:Hz.
  { apply Qeq_bool_iff in Hz. rewrite Hz. discriminate. }
  assert (Hq0 : ~ q == 0).
  { intros H. apply Qeq_bool_iff in H. congruence. }
  assert (Ha : 0 < Qabs q).
  { pose proof (Qabs_nonneg q) as Hn.
    destruct (Qlt_le_dec 0 (Qabs q)) as [H | H]; [exact H |].
    exfalso. apply Hq0.
    assert (Hq : Qabs q == 0) by lra.
    revert Hq. apply Qabs_case; intros; lra. }
  set (a := Qabs q) in *.
  pose proof (binade_le a Ha) as Hk.
  assert (He : (binade a - 52 <= -2)%Z).
  { destruct (Z_le_gt_dec (binade a) 50) as [H | H]; [lia |].
    exfalso. pose proof (pow2_le 51 (binade a) ltac:(lia)) as H51. lra. }
  set (e := (binade a - 52)%Z) in *.
  pose proof (pow2_pos e) as HP.
  pose proof (pow2_le e (-2) He) as HP4.
  change (2 ^ (-2)) with (1 # 4) in HP4.
  destruct (py_round_half_bound (a / 2 ^ e)) as [Hlo Hhi].
  set (m := inject_Z (py_round (a / 2 ^ e))) in *.
  assert (Hdiv : a / 2 ^ e * 2 ^ e == a).
  { field. lra. }
  assert (Herr : Qabs (m * 2 ^ e - a) <= 1 # 8).
  { apply Qabs_Qle_condition.
    assert (H1 : (a / 2 ^ e - m) * 2 ^ e <= (1 # 2) * 2 ^ e).
    { apply Qmult_le_compat_r; lra. }
    assert (H2 : - (1 # 2) * 2 ^ e <= (a / 2 ^ e - m) * 2 ^ e).
    { apply Qmult_le_compat_r; lra. }
    assert (H3 : (a / 2 ^ e - m) * 2 ^ e == a - m * 2 ^ e).
    { transitivity (a / 2 ^ e * 2 ^ e - m * 2 ^ e); [ring |].
      rewrite Hdiv. reflexivity. }
    rewrite H3 in H1, H2. split; lra. }
  destruct (Qle_bool 0 q) eqn:Hs.
  - apply Qle_bool_iff in Hs.
    assert (Haq : a == q) by (apply Qabs_pos; exact Hs).
    assert (Hsw : m * 2 ^ e - q == m * 2 ^ e - a).
    { rewrite Haq. reflexivity. }
    rewrite Hsw. exact Herr.
  - assert (Hneg : q <= 0).
    { destruct (Qlt_le_dec 0 q) as [H | H]; [| exact H].
      assert (Hle : 0 <= q) by lra. apply Qle_bool_iff in Hle. congruence. }
    assert (Haq : a == - q) by (apply Qabs_neg; exact Hneg).
    assert (Hsw : - (m * 2 ^ e) - q == - (m * 2 ^ e - a)).
    { rewrite Haq. ring. }
    rewrite Hsw, Qabs_opp. exact Herr.
Qed.

(** The bound [2^51] and the range of the pixels, as numerals. *)
Lemma pow2_51 : 2 ^ 51 == 2251799813685248.
Proof. reflexivity. Qed.

Lemma pixel_range_Q : inject_Z pixel_range == 562949953421312.
Proof. reflexivity. Qed.

(** A result below [2^51] that is less than three eighths away from an
    integer still rounds to that integer after the float rounding ... *)
Lemma round_float64_near (q : Q) (z : Z) :
  Qabs q < 2251799813685248 ->
  Qabs (q - inject_Z z) < 3 # 8 ->
  py_round (float64 q) = z.
Proof.
  intros Hb Hz. rewrite <- pow2_51 in Hb.
  pose proof (float64_error q Hb) as He.
  apply Qabs_Qle_condition in He. apply Qabs_Qlt_condition in Hz.
  apply py_round_near; lra.
Qed.

(** ... and in any case [round] of the float is at most five eighths away
    from the exact result. *)
Lemma round_float64_within (q : Q) :
  Qabs q < 2251799813685248 ->
  Qabs (inject_Z (py_round (float64 q)) - q) <= 5 # 8.
Proof.
  intros Hb. rewrite <- pow2_51 in Hb.
  pose proof (float64_error q Hb) as He.
  apply Qabs_Qle_condition in He.
  destruct (py_round_half_bound (float64 q)) as [Hlo Hhi].
  apply Qabs_Qle_condition. lra.
Qed.

(** Integers in the range of the pixels, as floats. *)
Lemma in_pixel_range_Z (z : Z) :
  (Z.abs z <= pixel_range)%Z ->
  - (562949953421312) <= inject_Z z /\ inject_Z z <= 562949953421312.
Proof.
  intros H. unfold pixel_range in H.
  change (- (562949953421312)) with (inject_Z (- 2 ^ 49)).
  change 562949953421312 with (inject_Z (2 ^ 49)).
  rewrite <- !Zle_Qle. lia.
Qed.

Lemma in_pixel_range_Q (q : Q) :
  in_pixel_range q -> - (562949953421312) <= q /\ q <= 562949953421312.
Proof.
  unfold in_pixel_range. rewrite pixel_range_Q. apply Qabs_Qle_condition.
Qed.

End Float64.

(** ** The pointer mappings *)

Section CoordinateMapper.

Variable ext : Externals.




End CoordinateMapper.



(** Why the flipped axis needs its side condition: the offset is taken off
    before the flip and put back before the flip, so that a vertical pan of
    5 moves the point by 10. *)
Lemma round_trip_flipped_axis :
  round_trip flipped_ext (mkCamera 0 5 1 0) (301, 300) = (301, 290).
Proof. reflexivity. Qed.

(** Why the offsets must keep a distance from the ties: at the double next
    below one half, [0.49999999999999994], which is no tie, the difference
    [1 - offset] is rounded to the double [0.5], and the point [(1, 0)]
    comes back as [(0, 0)]. *)
Lemma round_trip_next_to_a_tie :
  ~ is_tie (9007199254740991 # 18014398509481984) /\
  round_trip sample_ext
    (mkCamera (9007199254740991 # 18014398509481984) 0 1 0) (1, 0) = (0, 0).
Proof.
  split; [| vm_compute; reflexivity].
  unfold is_tie. vm_compute. discriminate.
Qed.

(** Why the magnitudes are bounded: around [1e17] doubles lie 16 apart, the
    difference [301 - 1e17] is 3 off and the point comes back 3 pixels
    off. *)
Lemma round_trip_far_pan :
  pointer_to_world sample_ext (mkCamera 100000000000000000 0 1 0) (301, 300)
    = (-99999999999999696, 300) /\
  round_trip sample_ext (mkCamera 100000000000000000 0 1 0) (301, 300)
    = (304, 300).
Proof. split; vm_compute; reflexivity. Qed.

(** ** The launch impulse *)

Section DragLaunch.

Variable ext : Externals.

(** The [MOUSEBUTTONUP] branch while pulling with a shape selected: the
    flag is cleared and the impulse is applied to the shape's body. *)
Lemma on_mousebuttonup_pulling (st : ProjectileMain) (ev : Event) (shape : Shape) :
  pulling st = true ->
  active_shape st = Some shape ->
  on_mousebuttonup ext ev st =
    Ok tt (set_heap
             (<[shape_body shape :=
                  apply_impulse_at_local_point
                    (launch_impulse ext (position (deref st (shape_body shape)))
                       (angle (deref st (shape_body shape)))
                       (release_point ext (camera st) (pos ev)))
                    (deref st (shape_body shape))]> (heap st))
             (set_pulling false st)).
Proof.
  intros Hp Ha. unfold on_mousebuttonup.
  cbv [mbind M_bind bind get]. rewrite Hp, Ha. reflexivity.
Qed.

(** C2 (amended).  On a release while pulling, the impulse applied to the
    selected body is [impulse * (position - release point)] rotated by
    minus the body's angle, with [impulse = -1000].  For a body at [(0, 0)]
    with angle 0 and a release point [(-10, 0)] it is [(-10000, 0)]: its
    x-component is strictly negative and its y-component is zero. *)
Theorem launch_impulse_applied (st : ProjectileMain) (ev : Event) (shape : Shape) :
  pulling st = true ->
  active_shape st = Some shape ->
  let body := deref st (shape_body shape) in
  let point2 := release_point ext (camera st) (pos ev) in
  let j := vec_scale (inject_Z impulse)
             (rotated ext (vec_sub (position body) (vec_of_point point2))
                (- angle body)%Q) in
  (exists st', on_mousebuttonup ext ev st = Ok tt st' /\
     impulses (deref st' (shape_body shape)) = j :: impulses body) /\
  ((math_cos ext 0 == 1)%Q -> (math_sin ext 0 == 0)%Q ->
   position body = mkVec2d 0 0 -> angle body = 0%Q -> point2 = (-10, 0) ->
   (vx j == - (10000))%Q /\ (vx j < 0)%Q /\ (vy j == 0)%Q).
Proof.
  intros Hp Ha body point2 j. split.
  - eexists. split; [exact (on_mousebuttonup_pulling st ev shape Hp Ha) |].
    unfold deref. cbn [heap set_heap]. rewrite lookup_total_insert_eq. reflexivity.
  - intros Hc Hs Hpos Hang Hp2. subst j.
    rewrite Hpos, Hang, Hp2.
    unfold vec_scale, rotated, vec_sub, vec_of_point, impulse.
    cbn [vx vy fst snd]. change (- 0)%Q with 0%Q.
    assert (Hx : (inject_Z (-1000) *
              ((0 - inject_Z (-10)) * math_cos ext 0 -
               (0 - inject_Z 0) * math_sin ext 0) == - (10000))%Q).
    { rewrite Hc, Hs. reflexivity. }
    assert (Hy : (inject_Z (-1000) *
              ((0 - inject_Z (-10)) * math_sin ext 0 +
               (0 - inject_Z 0) * math_cos ext 0) == 0)%Q).
    { rewrite Hc, Hs. reflexivity. }
    repeat split; [exact Hx | rewrite Hx; reflexivity | exact Hy].
Qed.

End DragLaunch.

(** The release of [release_left] on [aiming_at_origin]. *)
Lemma launch_impulse_applied_witness :
  (exists st', on_mousebuttonup sample_ext release_left aiming_at_origin = Ok tt st' /\
     exists j, impulses (deref st' 0%nat) = [j] /\ (vx j == - (10000))%Q) /\
  (vx (launch_impulse sample_ext (mkVec2d 0 0) 0 ((-10)%Z, 0%Z)) < 0)%Q.
Proof.
  pose proof (launch_impulse_applied sample_ext aiming_at_origin release_left
                initial_projectile_shape eq_refl eq_refl) as [[st' [Hrun Himp]] Hval].
  split.
  - exists st'. split; [exact Hrun |]. eexists. split; [exact Himp |].
    apply Hval; reflexivity.
  - apply Hval; reflexivity.
Defined.

(** C2 as stated fails: for the body at [(0, 0)] with angle 0 and the release
    point [(-10, 0)], the applied impulse has a negative x-component. *)
Lemma launch_impulse_points_left :
  release_point sample_ext (camera aiming_at_origin) (pos release_left) = (-10, 0) /\
  match on_mousebuttonup sample_ext release_left aiming_at_origin with
  | Ok _ st' =>
      match impulses (deref st' 0%nat) with
      | j :: _ => (vx j == - (10000))%Q /\ ~ (0 < vx j)%Q /\ (vy j == 0)%Q
      | [] => False
      end
  | _ => False
  end.
Proof.
  split; [reflexivity |].
  vm_compute. repeat split; discriminate.
Qed.

(** ** Creating and removing tracked obstacles *)

Section Lifecycle.

(** C3.  While [ready_to_step] (a step is under way) or [during_query] is
    set, [create] and [remove] report that the operation is not possible
    and change neither the tracked list nor the bodies and shapes of the
    space. *)
Theorem guarded_mutation_refused (st : ProjectileMain) (shape : string) :
  ready_to_step st = true \/ during_query st = true ->
  (exists st', create shape st = Ok tt st' /\
     reported st' = Some msg_create_busy /\
     objects st' = objects st /\ space st' = space st /\ heap st' = heap st) /\
  (exists st', remove st = Ok tt st' /\
     reported st' = Some msg_remove_busy /\
     objects st' = objects st /\ space st' = space st /\ heap st' = heap st).
Proof.
  intros Hguard.
  assert (Hor : ready_to_step st || during_query st = true).
  { destruct Hguard as [-> | ->]; [reflexivity | apply orb_true_r]. }
  split.
  - eexists. split.
    + unfold create. cbv [mbind M_bind bind get]. rewrite Hor. reflexivity.
    + repeat split.
  - eexists. split.
    + unfold remove. cbv [mbind M_bind bind get]. rewrite Hor. reflexivity.
    + repeat split.
Qed.

End Lifecycle.

(** The guard at work: during a step, with all fields filled in. *)
Lemma guarded_mutation_refused_witness :
  let st := set_ready_to_step true init in
  (exists st', create "Circle" st = Ok tt st' /\
     reported st' = Some msg_create_busy /\
     objects st' = objects st /\ space st' = space st /\ heap st' = heap st) /\
  (exists st', remove st = Ok tt st' /\
     reported st' = Some msg_remove_busy /\
     objects st' = objects st /\ space st' = space st /\ heap st' = heap st).
Proof.
  apply (guarded_mutation_refused (set_ready_to_step true init) "Circle").
  left. reflexivity.
Defined.

(** ** The hit test *)

Section HitTest.

Variable ext : Externals.

(** The guard along the loop: reset after every query that returns, still
    set when a query raises. *)
Lemma hit_test_loop_guard (p : Point) (bodies : list nat) :
  forall st, during_query st = false ->
  match hit_test_loop ext p bodies st with
  | Ok _ st' => during_query st' = false
  | Raised e st' => during_query st' = is_EngineError e
  | Returned _ _ => False
  end.
Proof.
  induction bodies as [| body rest IH]; intros st Hq.
  - exact Hq.
  - cbn [hit_test_loop]. run_monad.
    destruct (BodyType_eqb (body_type (deref st body)) DYNAMIC); [| now apply IH].
    destruct (shapes (deref st body)) as [| shape others]; [exact Hq |].
    destruct (point_query ext _ shape p) as [distance |]; [| reflexivity].
    destruct (Qltb distance 0); now apply IH.
Qed.

(** C4 (amended).  The pointer-down hit test sets [during_query] right
    before each point query and resets it right after each query that
    returns: when the handler completes, the guard is off.  There is no
    release on errors: when a point query raises, the error leaves the
    handler with the guard still set. *)
Theorem query_guard_released (st : ProjectileMain) (ev : Event) :
  during_query st = false ->
  match on_mousebuttondown ext ev st with
  | Ok _ st' => during_query st' = false
  | Raised e st' => during_query st' = is_EngineError e
  | Returned _ _ => False
  end.
Proof.
  intros Hq. unfold on_mousebuttondown. run_monad.
  apply hit_test_loop_guard. exact Hq.
Qed.

End HitTest.

(** The guard after a press on the first projectile. *)
Lemma query_guard_released_witness :
  match on_mousebuttondown sample_ext click_projectile init with
  | Ok _ st' => during_query st' = false
  | Raised e st' => during_query st' = is_EngineError e
  | Returned _ _ => False
  end.
Proof.
  apply (query_guard_released sample_ext init click_projectile). reflexivity.
Defined.

(** C4 as stated fails: when the point query raises, the handler is left
    with [during_query] set. *)
Lemma query_guard_stuck_on_error :
  match on_mousebuttondown raising_ext click_projectile init with
  | Raised e st' => e = EngineError /\ during_query st' = true
  | _ => False
  end.
Proof.
  vm_compute. split; reflexivity.
Qed.

Section HitTestSelection.

Variable ext : Externals.

Lemma Qltb_lt (x y : Q) : Qltb x y = true -> (x < y)%Q.
Proof.
  unfold Qltb. intros H. apply negb_true_iff in H.
  apply Qnot_le_lt. intros Hle. apply Qle_bool_iff in Hle. congruence.
Qed.

Lemma BodyType_eqb_eq (a b : BodyType) : BodyType_eqb a b = true -> a = b.
Proof. destruct a, b; simpl; congruence. Qed.

Lemma angles_only_refl (st : ProjectileMain) : angles_only st st.
Proof.
  intros b. exists (angle (deref st b)). now destruct (deref st b).
Qed.

Lemma angles_only_update (st0 st : ProjectileMain) (b : nat) (a : Q) :
  angles_only st0 st ->
  angles_only st0 (set_heap (<[b := with_angle a (deref st b)]> (heap st)) st).
Proof.
  intros H b'. unfold deref. cbn [heap set_heap].
  destruct (decide (b = b')) as [<- | Hne].
  - rewrite lookup_total_insert_eq. destruct (H b) as [a0 Ha0].
    exists a. unfold deref in Ha0. rewrite Ha0. reflexivity.
  - rewrite lookup_total_insert_ne by exact Hne. apply H.
Qed.

(** Whatever the loop selects is the first shape of a dynamic body of the
    list, and its point query answered a negative distance. *)
Lemma hit_test_loop_selects (p : Point) (st0 : ProjectileMain) (bodies : list nat) :
  forall st st' s,
  angles_only st0 st ->
  hit_test_loop ext p bodies st = Ok tt st' ->
  active_shape st' = Some s ->
  angles_only st0 st' /\
  (active_shape st = Some s \/
   exists b a d, In b bodies /\
     body_type (deref st0 b) = DYNAMIC /\
     head (shapes (deref st0 b)) = Some s /\
     point_query ext (with_angle a (deref st0 (shape_body s))) s p = Some d /\
     (d < 0)%Q).
Proof.
  induction bodies as [| body rest IH]; intros st st' s Hinv Hrun Hact.
  - cbn in Hrun. injection Hrun as <-. split; [exact Hinv | now left].
  - cbn [hit_test_loop] in Hrun. revert Hrun. run_monad.
    destruct (Hinv body) as [a0 Hbody].
    destruct (BodyType_eqb (body_type (deref st body)) DYNAMIC) eqn:Hdyn.
    2:{ intros Hrun. destruct (IH _ _ _ Hinv Hrun Hact) as [Hinv' [Hl | Hr]].
        - split; [exact Hinv' | now left].
        - split; [exact Hinv' |]. right.
          destruct Hr as (b & a & d & Hin & Hrest). exists b, a, d.
          split; [now right | exact Hrest]. }
    destruct (shapes (deref st body)) as [| shape others] eqn:Hshapes;
      [discriminate |].
    destruct (point_query ext (deref (set_during_query true st) (shape_body shape))
                shape p) as [distance |] eqn:Hquery; [| discriminate].
    destruct (Qltb distance 0) eqn:Hneg.
    + intros Hrun.
      match type of Hrun with
      | hit_test_loop _ _ _ ?st2 = _ =>
          assert (Hinv2 : angles_only st0 st2)
      end.
      { apply (angles_only_update st0 _ (shape_body shape)).
        intros b. apply Hinv. }
      destruct (IH _ _ _ Hinv2 Hrun Hact) as [Hinv' [Hl | Hr]].
      * split; [exact Hinv' |]. right. cbn in Hl. injection Hl as <-.
        destruct (Hinv (shape_body shape)) as [a1 Ha1].
        exists body, a1, distance.
        rewrite Hbody in Hdyn, Hshapes. cbn in Hdyn, Hshapes.
        split; [now left |]. split; [now apply BodyType_eqb_eq |].
        split; [now rewrite Hshapes |]. split; [| now apply Qltb_lt].
        rewrite <- Ha1. exact Hquery.
      * split; [exact Hinv' |]. right.
        destruct Hr as (b & a & d & Hin & Hrest). exists b, a, d.
        split; [now right | exact Hrest].
    + intros Hrun.
      match type of Hrun with
      | hit_test_loop _ _ _ ?st2 = _ =>
          assert (Hinv2 : angles_only st0 st2) by (intros b; apply Hinv)
      end.
      destruct (IH _ _ _ Hinv2 Hrun Hact) as [Hinv' [Hl | Hr]].
      * split; [exact Hinv' | now left].
      * split; [exact Hinv' |]. right.
        destruct Hr as (b & a & d & Hin & Hrest). exists b, a, d.
        split; [now right | exact Hrest].
Qed.

(** C5.  Whatever world point the pointer maps to, a shape selected by the
    pointer-down hit test is the first shape of a dynamic body of the space
    (never of a static one), and the point query against it answered a
    strictly negative distance.  With shapes attached to the bodies that
    list them, the body of the selected shape is that dynamic body. *)
Theorem hit_test_selects_dynamic_inside
    (st st' : ProjectileMain) (ev : Event) (s : Shape) :
  on_mousebuttondown ext ev st = Ok tt st' ->
  active_shape st' = Some s ->
  exists b a d,
    In b (space_bodies (space st)) /\
    body_type (deref st b) = DYNAMIC /\
    body_type (deref st' b) = DYNAMIC /\
    head (shapes (deref st b)) = Some s /\
    point_query ext (with_angle a (deref st (shape_body s))) s
      (pointer_to_world ext (camera st) (mouse_get_pos ev)) = Some d /\
    (d < 0)%Q /\
    (first_shape_attached (heap st) (space_bodies (space st)) ->
     shape_body s = b /\ body_type (deref st' (shape_body s)) = DYNAMIC).
Proof.
  intros Hrun Hact. unfold on_mousebuttondown in Hrun. revert Hrun. run_monad.
  intros Hrun.
  destruct (hit_test_loop_selects _ st _ _ _ s
              (angles_only_refl (set_active_shape None st)) Hrun Hact)
    as [Hinv [Hl | (b & a & d & Hin & Hdyn & Hhead & Hq & Hd)]].
  - discriminate.
  - assert (Hdyn' : body_type (deref st' b) = DYNAMIC).
    { destruct (Hinv b) as [a' Ha']. rewrite Ha'. exact Hdyn. }
    exists b, a, d. repeat (split; [assumption |]).
    intros Hatt. rewrite (Hatt b s Hin Hhead). split; [reflexivity | exact Hdyn'].
Qed.

End HitTestSelection.

(** A press on the first projectile selects its shape. *)
Lemma hit_test_selects_dynamic_inside_witness :
  exists b a d,
    In b (space_bodies (space init)) /\
    body_type (deref init b) = DYNAMIC /\
    body_type (deref (final_state (on_mousebuttondown sample_ext click_projectile init)) b)
      = DYNAMIC /\
    head (shapes (deref init b)) = Some initial_projectile_shape /\
    point_query sample_ext
      (with_angle a (deref init (shape_body initial_projectile_shape)))
      initial_projectile_shape
      (pointer_to_world sample_ext (camera init) (mouse_get_pos click_projectile))
      = Some d /\
    (d < 0)%Q /\
    (first_shape_attached (heap init) (space_bodies (space init)) ->
     shape_body initial_projectile_shape = b /\
     body_type
       (deref (final_state (on_mousebuttondown sample_ext click_projectile init))
          (shape_body initial_projectile_shape)) = DYNAMIC).
Proof.
  apply (hit_test_selects_dynamic_inside sample_ext init
           (final_state (on_mousebuttondown sample_ext click_projectile init))
           click_projectile initial_projectile_shape).
  - vm_compute. reflexivity.
  - vm_compute. reflexivity.
Defined.

Section HitTestOrder.

Variable ext : Externals.

Lemma hit_insert_other (h : gmap nat Body) (p : Point) (b b' : nat) (x : Body) :
  b <> b' ->
  (forall s, head (shapes (h !!! b')) = Some s -> shape_body s = b') ->
  hit ext (<[b := x]> h) p b' = hit ext h p b'.
Proof.
  intros Hne Hatt. unfold hit.
  rewrite lookup_total_insert_ne by exact Hne.
  destruct (BodyType_eqb (body_type (h !!! b')) DYNAMIC); [| reflexivity].
  destruct (shapes (h !!! b')) as [| shape others] eqn:Hs; [reflexivity |].
  rewrite (Hatt shape eq_refl).
  rewrite lookup_total_insert_ne by exact Hne. reflexivity.
Qed.

Lemma hits_insert_other (h : gmap nat Body) (p : Point) (b : nat) (x : Body)
    (bodies : list nat) :
  ~ In b bodies ->
  first_shape_attached h bodies ->
  hits ext (<[b := x]> h) p bodies = hits ext h p bodies.
Proof.
  induction bodies as [| b' rest IH]; intros Hnin Hatt; [reflexivity |].
  unfold hits in *. cbn [omap list_omap].
  rewrite hit_insert_other.
  - rewrite IH; [reflexivity | |].
    + intros Hin. apply Hnin. now right.
    + intros b0 s Hin. apply Hatt. now right.
  - intros ->. apply Hnin. now left.
  - intros s. apply Hatt. now left.
Qed.

Lemma first_shape_attached_insert_other (h : gmap nat Body) (b : nat) (x : Body)
    (bodies : list nat) :
  ~ In b bodies ->
  first_shape_attached h bodies ->
  first_shape_attached (<[b := x]> h) bodies.
Proof.
  intros Hnin Hatt b' s Hin.
  rewrite lookup_total_insert_ne; [now apply Hatt |].
  intros ->. contradiction.
Qed.

(** The loop leaves the last hit selected; without a hit the selection
    stays as it was. *)
Lemma hit_test_loop_last (p : Point) (bodies : list nat) :
  forall st st',
  List.NoDup bodies ->
  first_shape_attached (heap st) bodies ->
  hit_test_loop ext p bodies st = Ok tt st' ->
  active_shape st' =
    match last (hits ext (heap st) p bodies) with
    | Some s => Some s
    | None => active_shape st
    end.
Proof.
  induction bodies as [| body rest IH]; intros st st' Hnd Hatt Hrun.
  - cbn in Hrun. injection Hrun as <-. reflexivity.
  - apply List.NoDup_cons_iff in Hnd as [Hnin Hnd].
    assert (Hatt' : first_shape_attached (heap st) rest).
    { intros b s Hin. apply Hatt. now right. }
    cbn [hit_test_loop] in Hrun. revert Hrun. run_monad.
    unfold hits. cbn [omap list_omap]. unfold hit at 1. unfold deref.
    destruct (BodyType_eqb (body_type (heap st !!! body)) DYNAMIC) eqn:Hdyn.
    2:{ intros Hrun. exact (IH _ _ Hnd Hatt' Hrun). }
    destruct (shapes (heap st !!! body)) as [| shape others] eqn:Hshapes;
      [discriminate |].
    assert (Hsb : shape_body shape = body).
    { apply Hatt; [now left | now rewrite Hshapes]. }
    cbn [heap set_during_query]. rewrite Hsb.
    destruct (point_query ext (heap st !!! body) shape p) as [distance |];
      [| discriminate].
    destruct (Qltb distance 0).
    + intros Hrun.
      apply IH in Hrun; [| exact Hnd |].
      * cbn [heap set_heap active_shape set_active_shape set_pulling
             set_during_query] in Hrun.
        rewrite hits_insert_other in Hrun by assumption.
        rewrite Hrun. unfold hits. rewrite last_cons.
        now destruct (last (omap (hit ext (heap st) p) rest)).
      * cbn [heap set_heap]. now apply first_shape_attached_insert_other.
    + intros Hrun. apply IH in Hrun; [| exact Hnd | exact Hatt'].
      exact Hrun.
Qed.

(** C6 (amended).  The loop of the hit test has no early exit: when several
    dynamic bodies contain the queried point, each of them is selected in
    turn and the one that stays selected is the last such body in the
    iteration order over the space's bodies. *)
Theorem hit_test_last_match_wins (st st' : ProjectileMain) (ev : Event) :
  List.NoDup (space_bodies (space st)) ->
  first_shape_attached (heap st) (space_bodies (space st)) ->
  on_mousebuttondown ext ev st = Ok tt st' ->
  active_shape st' =
    last (hits ext (heap st)
            (pointer_to_world ext (camera st) (mouse_get_pos ev))
            (space_bodies (space st))).
Proof.
  intros Hnd Hatt Hrun. unfold on_mousebuttondown in Hrun. revert Hrun.
  run_monad. intros Hrun.
  apply hit_test_loop_last in Hrun; [| exact Hnd | exact Hatt].
  rewrite Hrun. cbn [heap set_active_shape active_shape].
  now destruct (last _).
Qed.

End HitTestOrder.

Lemma NoDup_two_projectiles : List.NoDup (space_bodies (space two_projectiles)).
Proof.
  vm_compute. repeat constructor; cbn; intuition discriminate.
Qed.

Lemma attached_two_projectiles :
  first_shape_attached (heap two_projectiles) (space_bodies (space two_projectiles)).
Proof.
  intros b s Hin. vm_compute in Hin.
  destruct Hin as [<- | [<- | []]]; vm_compute; intros H; injection H as <-;
    reflexivity.
Qed.

(** Two overlapping projectiles: the second one stays selected. *)
Lemma hit_test_last_match_wins_witness :
  active_shape (final_state (on_mousebuttondown sample_ext click_overlap two_projectiles))
  = last (hits sample_ext (heap two_projectiles)
            (pointer_to_world sample_ext (camera two_projectiles)
               (mouse_get_pos click_overlap))
            (space_bodies (space two_projectiles))).
Proof.
  apply (hit_test_last_match_wins sample_ext two_projectiles
           (final_state (on_mousebuttondown sample_ext click_overlap two_projectiles))
           click_overlap).
  - exact NoDup_two_projectiles.
  - exact attached_two_projectiles.
  - vm_compute. reflexivity.
Defined.

(** C6 as stated fails: with two projectiles containing the point, the
    first in iteration order is the initial one, and the hit test selects
    the other. *)
Lemma hit_test_not_first_match :
  hits sample_ext (heap two_projectiles) (105, 100)
    (space_bodies (space two_projectiles))
  = [initial_projectile_shape; mkShape 3 2 20] /\
  match on_mousebuttondown sample_ext click_overlap two_projectiles with
  | Ok _ st' =>
      active_shape st' = Some (mkShape 3 2 20) /\
      active_shape st' <> Some initial_projectile_shape
  | _ => False
  end.
Proof.
  split; [vm_compute; reflexivity |].
  vm_compute. split; [reflexivity | discriminate].
Qed.

(** ** The end of a drag *)

Section Release.

Variable ext : Externals.

(** C7 (amended).  On a pointer-up event that ends an aiming drag (the
    pulling flag is set and a shape is selected), the controller computes
    the launch impulse, applies it to the selected body and clears the
    pulling flag; the selection itself is kept. *)
Theorem release_keeps_selection (st : ProjectileMain) (ev : Event) (shape : Shape) :
  etype ev = MOUSEBUTTONUP ->
  pulling st = true ->
  active_shape st = Some shape ->
  exists st',
    handle_event ext ev st = Ok tt st' /\
    impulses (deref st' (shape_body shape)) =
      launch_impulse ext (position (deref st (shape_body shape)))
        (angle (deref st (shape_body shape)))
        (release_point ext (camera st) (pos ev))
      :: impulses (deref st (shape_body shape)) /\
    pulling st' = false /\
    active_shape st' = Some shape.
Proof.
  intros Hev Hp Ha. eexists. split.
  - unfold handle_event. rewrite Hev. run_monad.
    apply (on_mousebuttonup_pulling ext _ ev shape); assumption.
  - unfold deref. cbn [heap set_heap set_entries set_pulling pulling active_shape camera].
    rewrite lookup_total_insert_eq. repeat split. exact Ha.
Qed.

End Release.

(** The release of [release_left] on [aiming_at_origin]. *)
Lemma release_keeps_selection_witness :
  exists st',
    handle_event sample_ext release_left aiming_at_origin = Ok tt st' /\
    impulses (deref st' 0%nat) =
      [launch_impulse sample_ext (mkVec2d 0 0) 0 ((-10)%Z, 0%Z)] /\
    pulling st' = false /\
    active_shape st' = Some initial_projectile_shape.
Proof.
  apply (release_keeps_selection sample_ext aiming_at_origin release_left
           initial_projectile_shape); reflexivity.
Defined.

(** C7 as stated fails: after the release the shape is still selected. *)
Lemma release_does_not_deselect :
  pulling aiming_at_origin = true /\
  match handle_event sample_ext release_left aiming_at_origin with
  | Ok _ st' => pulling st' = false /\ active_shape st' <> None
  | _ => False
  end.
Proof.
  split; [reflexivity |]. vm_compute. split; [reflexivity | discriminate].
Qed.

(** ** Removing by name *)

Section RemoveByName.

(** Objects whose name differs are stepped over. *)
Lemma remove_loop_no_match (n : string) (indices : list nat) :
  forall st,
  (forall i o, In i indices -> objects st !! i = Some o -> name o <> n) ->
  remove_loop indices n st = Ok tt st.
Proof.
  induction indices as [| i rest IH]; intros st Hno; [reflexivity |].
  cbn [remove_loop]. run_monad.
  destruct (objects st !! i) as [o |] eqn:Hi; [| reflexivity].
  assert (Hne : String.eqb (name o) n = false).
  { apply String.eqb_neq. apply (Hno i o); [now left | exact Hi]. }
  rewrite Hne. apply IH. intros j o' Hj. apply Hno. now right.
Qed.

Lemma remove_loop_skip_prefix (n : string) (indices rest : list nat) :
  forall st,
  (forall i, In i indices -> exists o, objects st !! i = Some o /\ name o <> n) ->
  remove_loop (indices ++ rest) n st = remove_loop rest n st.
Proof.
  induction indices as [| i more IH]; intros st Hpre; [reflexivity |].
  cbn [app remove_loop]. run_monad.
  destruct (Hpre i (or_introl eq_refl)) as (o & Hi & Hne).
  rewrite Hi. apply String.eqb_neq in Hne. rewrite Hne.
  apply IH. intros j Hj. apply Hpre. now right.
Qed.

Lemma list_remove_middle (o : StaticObstacle) (l1 l2 : list StaticObstacle) :
  (forall x, In x l1 -> obstacle_body x <> obstacle_body o) ->
  list_remove o (l1 ++ o :: l2) = l1 ++ l2.
Proof.
  induction l1 as [| x l1 IH]; intros Hid; cbn [app list_remove].
  - now rewrite Nat.eqb_refl.
  - assert (Hx : Nat.eqb (obstacle_body o) (obstacle_body x) = false).
    { apply Nat.eqb_neq. intros Heq. apply (Hid x); [now left | now symmetry]. }
    rewrite Hx. f_equal. apply IH. intros y Hy. apply Hid. now right.
Qed.

Lemma space_remove_present (shape : Shape) (body : nat) (st : ProjectileMain) :
  nat_inb (shape_id shape) (space_shapes (space st)) = true ->
  nat_inb body (space_bodies (space st)) = true ->
  space_remove shape body st =
    Ok tt (set_space
             (mkSpace (remove_nat body (space_bodies (space st)))
                      (remove_nat (shape_id shape) (space_shapes (space st))))
             st).
Proof.
  intros Hs Hb. unfold space_remove. run_monad. rewrite Hs, Hb. reflexivity.
Qed.

(** C8 (amended).  With the guards off and a name in the name field,
    [remove] reports nothing.  When no tracked object has that name, the
    tracked list and the space stay as they are and no error is reported.
    When exactly one tracked object has that name, its shape and body are
    taken out of the space and the object is dropped from the tracked
    list. *)
Theorem remove_by_name (st : ProjectileMain) :
  ready_to_step st = false ->
  during_query st = false ->
  entry_get (entry_name st) <> EmptyString ->
  ((forall o, In o (objects st) -> name o <> entry_get (entry_name st)) ->
   exists st', remove st = Ok tt st' /\
     reported st' = None /\
     objects st' = objects st /\ space st' = space st /\ heap st' = heap st) /\
  (forall l1 o l2,
     objects st = l1 ++ o :: l2 ->
     name o = entry_get (entry_name st) ->
     (forall x, In x (l1 ++ l2) -> name x <> entry_get (entry_name st)) ->
     (forall x, In x l1 -> obstacle_body x <> obstacle_body o) ->
     nat_inb (shape_id (obstacle_shape o)) (space_shapes (space st)) = true ->
     nat_inb (obstacle_body o) (space_bodies (space st)) = true ->
     exists st', remove st = Ok tt st' /\
       reported st' = None /\
       objects st' = l1 ++ l2 /\
       space st' =
         mkSpace (remove_nat (obstacle_body o) (space_bodies (space st)))
                 (remove_nat (shape_id (obstacle_shape o)) (space_shapes (space st)))).
Proof.
  intros Hr Hq Hname.
  assert (Hfilled : py_bool_str (entry_get (entry_name st)) = true).
  { destruct (entry_get (entry_name st)); [contradiction | reflexivity]. }
  split.
  - intros Hno. eexists. split.
    + unfold remove. run_monad. rewrite Hr, Hq. cbn [orb negb andb].
      rewrite Hfilled. cbn [negb]. unfold label_info_config. run_monad.
      apply remove_loop_no_match.
      intros i o _ Hi. apply Hno.
      cbn [objects set_label_info set_show_info] in Hi.
      apply list_elem_of_In. eapply list_elem_of_lookup_2. exact Hi.
    + repeat split.
  - intros l1 o l2 Hobjs Ho Hothers Hid Hs Hb.
    eexists. split.
    + unfold remove. run_monad. rewrite Hr, Hq. cbn [orb negb andb].
      rewrite Hfilled. cbn [negb]. unfold label_info_config. run_monad.
      rewrite Hobjs, length_app. cbn [length].
      rewrite seq_app. cbn [seq plus].
      rewrite remove_loop_skip_prefix.
      2:{ intros i Hi. apply in_seq in Hi.
          cbn [objects set_label_info set_show_info]. rewrite Hobjs.
          assert (Hlt : (i < length l1)%nat) by lia.
          destruct (lookup_lt_is_Some_2 l1 i Hlt) as [x Hx].
          exists x. split; [rewrite lookup_app_l by exact Hlt; exact Hx |].
          apply Hothers. apply in_or_app. left.
          apply list_elem_of_In. eapply list_elem_of_lookup_2. exact Hx. }
      cbn [remove_loop]. run_monad.
      cbn [objects set_label_info set_show_info]. rewrite Hobjs.
      rewrite list_lookup_middle by reflexivity.
      rewrite Ho, String.eqb_refl.
      rewrite space_remove_present by assumption.
      cbn [objects set_space set_label_info set_show_info]. rewrite Hobjs.
      rewrite list_remove_middle by exact Hid.
      apply remove_loop_no_match.
      intros i x _ Hi. cbn [objects set_objects] in Hi.
      apply Hothers. apply list_elem_of_In. eapply list_elem_of_lookup_2. exact Hi.
    + repeat split.
Qed.

End RemoveByName.

(** The two cases on the form filled in with the name A: nothing tracked
    at first, the circle A tracked after Create. *)
Lemma remove_by_name_witness :
  (exists st', remove form_filled = Ok tt st' /\
     reported st' = None /\
     objects st' = objects form_filled /\ space st' = space form_filled /\
     heap st' = heap form_filled) /\
  (exists st', remove created_A = Ok tt st' /\
     reported st' = None /\
     objects st' = [] /\
     space st' = space init).
Proof.
  split.
  - apply (remove_by_name form_filled); [reflexivity | reflexivity | discriminate |].
    intros o [].
  - destruct (remove_by_name created_A) as [_ H];
      [reflexivity | reflexivity | discriminate |].
    apply (H [] (mkStaticObstacle "A" "Circle" (Radius 10) 2 (mkShape 3 2 10)) []).
    + vm_compute. reflexivity.
    + reflexivity.
    + intros x [].
    + intros x [].
    + reflexivity.
    + reflexivity.
Defined.

(** C8 as stated fails: the circle A is created and removed; removing A a
    second time completes without reporting anything. *)
Lemma second_remove_reports_nothing :
  map name (objects created_A) = ["A"%string] /\
  objects removed_A = [] /\
  match remove removed_A with
  | Ok _ st' => reported st' = None /\ objects st' = [] /\ space st' = space removed_A
  | _ => False
  end.
Proof.
  vm_compute. repeat split.
Qed.

(** ** Input while a text field has the focus *)

Section BusyEntries.

Variable ext : Externals.

(** The camera and the creation of projectiles do look at the entries:
    while one of them is busy, both leave the state as it is. *)
Lemma camera_waits_for_entries (st : ProjectileMain) (keys : list Key) :
  any_entry_busy st = true ->
  handle_camera_movement ext keys st = Ok tt st.
Proof.
  intros Hbusy. unfold handle_camera_movement. run_monad. now rewrite Hbusy.
Qed.

Lemma create_projectile_waits_for_entries (st : ProjectileMain) (ev : Event) :
  any_entry_busy st = true ->
  create_projectile ext ev st = Ok tt st.
Proof.
  intros Hbusy. unfold create_projectile. run_monad. now rewrite Hbusy.
Qed.

End BusyEntries.

(** C9 does not hold of the pointer.  Whatever the entries do with the
    event, if one of them is busy when the drag controller gets a press of
    the mouse button and the pointer is on the shape of a dynamic body (here
    the only body of the space), the shape is selected and a drag starts;
    the camera is left alone. *)
Theorem drag_starts_while_typing (ext : Externals) (st : ProjectileMain)
    (ev : Event) (b : nat) (shape : Shape) (others : list Shape) (d : Q) :
  etype ev = MOUSEBUTTONDOWN ->
  any_entry_busy (set_entries (handle_entry_events ext ev) st) = true ->
  space_bodies (space st) = [b] ->
  body_type (deref st b) = DYNAMIC ->
  shapes (deref st b) = shape :: others ->
  point_query ext (deref st (shape_body shape)) shape
    (pointer_to_world ext (camera st) (mouse_get_pos ev)) = Some d ->
  Qltb d 0 = true ->
  exists st',
    handle_event ext ev st = Ok tt st' /\
    any_entry_busy st' = true /\
    camera st' = camera st /\
    pulling st' = true /\
    active_shape st' = Some shape.
Proof.
  intros Hev Hbusy Hbodies Hdyn Hshapes Hquery Hneg.
  eexists. split.
  - unfold handle_event. rewrite Hev. unfold on_mousebuttondown. run_monad.
    cbn [space set_entries]. rewrite Hbodies.
    cbn [hit_test_loop]. run_monad. unfold deref in *.
    cbn [heap set_entries set_active_shape set_during_query camera].
    rewrite Hdyn, Hshapes. cbn [BodyType_eqb].
    cbn [heap set_entries set_active_shape set_during_query].
    rewrite Hquery. cbn beta. rewrite Hneg. reflexivity.
  - repeat split. exact Hbusy.
Qed.

(** The name field is busy and the button is pressed on the first
    projectile. *)
Lemma drag_starts_while_typing_witness :
  any_entry_busy typing = true /\
  exists st',
    handle_event sample_ext click_projectile typing = Ok tt st' /\
    any_entry_busy st' = true /\
    camera st' = camera typing /\
    pulling st' = true /\
    active_shape st' = Some initial_projectile_shape.
Proof.
  split; [reflexivity |].
  apply (drag_starts_while_typing sample_ext typing click_projectile 0%nat
           initial_projectile_shape [] (- (625))%Q); reflexivity.
Defined.

(** ** Backspace during a drag *)

(** C10 does not hold: a press on the projectile, Backspace and the release
    of the button.  After the first two events the pulling flag is set with
    nothing selected, and the release raises [AttributeError]; the error
    leaves the main loop. *)
Theorem backspace_during_drag_crashes :
  match handle_events sample_ext [click_projectile; press_backspace] init with
  | Ok _ st => pulling st = true /\ active_shape st = None
  | _ => False
  end /\
  (exists st',
     handle_events sample_ext [click_projectile; press_backspace; release_button] init
     = Raised AttributeError st') /\
  (exists st',
     mainloop sample_ext
       [mkFrameInput [click_projectile; press_backspace; release_button] []] init
     = Raised AttributeError st').
Proof.
  split; [vm_compute; split; reflexivity |].
  split; eexists; vm_compute; reflexivity.
Qed.

(** * Further properties of the code *)

(** ** Rounding and the pointer mappings *)

Section PointerMappings.

Local Open Scope Q_scope.

(** There and back, whatever the offset: each of the two roundings is at
    most five eighths away from the exact result. *)
Lemma round_twice_within_one (n : Z) (o : Q) :
  in_pixel_range o -> (Z.abs n <= pixel_range)%Z ->
  (-1 <= py_round (float64 (inject_Z (py_round (float64 (inject_Z n - o))) + o))
         - n <= 1)%Z.
Proof.
  intros Ho Hn. apply in_pixel_range_Q in Ho. apply in_pixel_range_Z in Hn.
  assert (H1 : Qabs (inject_Z n - o) < 2251799813685248).
  { apply Qabs_Qlt_condition. lra. }
  pose proof (round_float64_within _ H1) as E1.
  apply Qabs_Qle_condition in E1.
  set (r := py_round (float64 (inject_Z n - o))) in *.
  assert (H2 : Qabs (inject_Z r + o) < 2251799813685248).
  { apply Qabs_Qlt_condition. lra. }
  pose proof (round_float64_within _ H2) as E2.
  apply Qabs_Qle_condition in E2.
  set (x := py_round (float64 (inject_Z r + o))) in *.
  assert (Hlo : (-2 < x - n)%Z).
  { rewrite Zlt_Qlt. unfold Z.sub. rewrite inject_Z_plus, inject_Z_opp.
    change (inject_Z (-2)) with (- (2))%Q. lra. }
  assert (Hhi : (x - n < 2)%Z).
  { rewrite Zlt_Qlt. unfold Z.sub. rewrite inject_Z_plus, inject_Z_opp.
    change (inject_Z 2) with 2%Q. lra. }
  lia.
Qed.

(** The difference of two integers of the range is computed exactly. *)
Lemma whole_difference (n o : Z) :
  (Z.abs n <= pixel_range)%Z -> (Z.abs o <= pixel_range)%Z ->
  py_round (float64 (inject_Z n - inject_Z o)) = (n - o)%Z.
Proof.
  intros Hn Ho. apply in_pixel_range_Z in Hn. apply in_pixel_range_Z in Ho.
  assert (Hsub : inject_Z (n - o) == inject_Z n - inject_Z o).
  { unfold Z.sub. rewrite inject_Z_plus, inject_Z_opp. reflexivity. }
  apply round_float64_near; rewrite ?Hsub; apply Qabs_Qlt_condition; lra.
Qed.

End PointerMappings.

(** X1.  With the vertical axis not flipped, and with pan offsets and
    coordinates up to [2^49] in magnitude, the round trip of a screen point
    through the two pointer mappings is never more than one pixel off in
    either coordinate, whatever the zoom and rotation.  (Beyond that range
    the float arithmetic alone moves the point further.) *)
Theorem round_trip_within_one_pixel (ext : Externals) (cam : Camera) (p : Point) :
  positive_y_is_up ext = false ->
  in_pixel_range (x_offset cam) -> in_pixel_range (y_offset cam) ->
  Z.abs (fst p) <= pixel_range -> Z.abs (snd p) <= pixel_range ->
  -1 <= fst (round_trip ext cam p) - fst p <= 1 /\
  -1 <= snd (round_trip ext cam p) - snd p <= 1.
Proof.
  intros Hup Hx Hy Hpx Hpy. destruct p as [px py].
  unfold round_trip, world_to_pointer, pointer_to_world, from_pygame,
    to_pygame, np_add, np_subtract, vec_of_point, offset.
  rewrite Hup. cbn [vx vy fst snd] in *.
  split; apply round_twice_within_one; assumption.
Qed.

Lemma round_trip_within_one_pixel_witness :
  -1 <= fst (round_trip sample_ext (mkCamera (1 # 2) (3 # 2) 2 1) (301, 300)) - 301 <= 1 /\
  -1 <= snd (round_trip sample_ext (mkCamera (1 # 2) (3 # 2) 2 1) (301, 300)) - 300 <= 1.
Proof.
  apply (round_trip_within_one_pixel sample_ext (mkCamera (1 # 2) (3 # 2) 2 1) (301, 300)).
  - reflexivity.
  - vm_compute. discriminate.
  - vm_compute. discriminate.
  - vm_compute. discriminate.
  - vm_compute. discriminate.
Defined.

(** X2.  The release point of a [MOUSEBUTTONUP] goes through [from_pygame]
    twice.  Without the flip this is the point the press mapping gives for
    the same position; with the flip the second pass undoes the first, and
    the release point is the press point mirrored about the window
    height. *)
Theorem release_point_double_conversion (ext : Externals) (cam : Camera) (p : Point) :
  release_point ext cam p =
    if positive_y_is_up ext
    then (fst (pointer_to_world ext cam p),
          snd (SIZE ext) - snd (pointer_to_world ext cam p))
    else pointer_to_world ext cam p.
Proof.
  unfold release_point, pointer_to_world, from_pygame, to_pygame, vec_of_point.
  destruct (positive_y_is_up ext); cbn [vx vy fst snd];
    rewrite !py_round_inject_Z; reflexivity.
Qed.

(** X3.  For a pan offset of whole pixels, with offsets and coordinates up to
    [2^49] in magnitude, the press mapping is the translation by minus the
    offset (followed by the flip when the library flips): zoom and rotation
    do not enter. *)
Theorem pointer_to_world_whole_pan (ext : Externals) (ox oy : Z) (z r : Q) (p : Point) :
  Z.abs ox <= pixel_range -> Z.abs oy <= pixel_range ->
  Z.abs (fst p) <= pixel_range -> Z.abs (snd p) <= pixel_range ->
  pointer_to_world ext (mkCamera (inject_Z ox) (inject_Z oy) z r) p =
    if positive_y_is_up ext
    then (fst p - ox, snd (SIZE ext) - (snd p - oy))
    else (fst p - ox, snd p - oy).
Proof.
  intros Hox Hoy Hpx Hpy.
  unfold pointer_to_world, from_pygame, to_pygame, np_subtract, vec_of_point,
    offset.
  cbn [vx vy fst snd x_offset y_offset].
  rewrite !whole_difference by assumption.
  now destruct (positive_y_is_up ext).
Qed.

Lemma pointer_to_world_whole_pan_witness :
  pointer_to_world sample_ext (mkCamera 40 (-25) 2 1) (301, 300) = (261, 325).
Proof.
  apply (pointer_to_world_whole_pan sample_ext 40 (-25) 2 1 (301, 300));
    vm_compute; discriminate.
Defined.

(** ** Strength and direction of the launch impulse *)

(** X4.  Releasing the button on the centre of the body applies a null impulse,
    whatever the body's angle. *)
Theorem zero_pull_zero_impulse (ext : Externals) (point1 : Vec2d) (a : Q)
    (point2 : Point) :
  vec_eq point1 (vec_of_point point2) ->
  vec_eq (launch_impulse ext point1 a point2) (mkVec2d 0 0).
Proof.
  intros [Hx Hy]. unfold vec_eq, launch_impulse, vec_scale, rotated, vec_sub in *.
  cbn [vx vy] in *. rewrite Hx, Hy. split; ring.
Qed.

Lemma zero_pull_zero_impulse_witness :
  vec_eq (launch_impulse sample_ext (mkVec2d 100 100) (1 # 3) (100, 100))
    (mkVec2d 0 0).
Proof.
  apply (zero_pull_zero_impulse sample_ext (mkVec2d 100 100) (1 # 3) (100, 100)).
  split; reflexivity.
Defined.

(** ** What a press of the mouse button changes *)

Section Press.

Variable ext : Externals.

Lemma angles_only_trans (st0 st1 st2 : ProjectileMain) :
  angles_only st0 st1 -> angles_only st1 st2 -> angles_only st0 st2.
Proof.
  intros H1 H2 b. destruct (H1 b) as [a1 Ha1]. destruct (H2 b) as [a2 Ha2].
  exists a2. rewrite Ha2, Ha1. reflexivity.
Qed.

Lemma turned_only_trans (st0 st1 st2 : ProjectileMain) :
  turned_only st0 st1 -> turned_only st1 st2 -> turned_only st0 st2.
Proof.
  intros (Hs1 & Ho1 & Hc1 & Ha1) (Hs2 & Ho2 & Hc2 & Ha2).
  repeat split; try congruence. eapply angles_only_trans; eassumption.
Qed.

Lemma turned_only_same_store (st st' : ProjectileMain) :
  space st' = space st -> objects st' = objects st -> camera st' = camera st ->
  heap st' = heap st -> turned_only st st'.
Proof.
  intros Hs Ho Hc Hh. repeat split; try assumption.
  intros b. exists (angle (deref st b)). unfold deref. rewrite Hh.
  now destruct (heap st !!! b).
Qed.

Lemma hit_test_loop_turns_only (p : Point) (bodies : list nat) :
  forall st, turned_only st (final_state (hit_test_loop ext p bodies st)).
Proof.
  induction bodies as [| body rest IH]; intros st.
  - now apply turned_only_same_store.
  - cbn [hit_test_loop]. run_monad.
    destruct (BodyType_eqb (body_type (deref st body)) DYNAMIC); [| apply IH].
    destruct (shapes (deref st body)) as [| shape others].
    { now apply turned_only_same_store. }
    destruct (point_query ext _ shape p) as [distance |].
    2:{ now apply turned_only_same_store. }
    destruct (Qltb distance 0).
    + match goal with
      | |- turned_only _ (final_state (hit_test_loop _ _ _ ?st2)) =>
          apply (turned_only_trans st st2); [| apply IH]
      end.
      split; [reflexivity |]. split; [reflexivity |]. split; [reflexivity |].
      apply (angles_only_update st _ (shape_body shape)).
      exact (angles_only_refl st).
    + match goal with
      | |- turned_only _ (final_state (hit_test_loop _ _ _ ?st2)) =>
          apply (turned_only_trans st st2); [| apply IH]
      end.
      now apply turned_only_same_store.
Qed.

(** X6.  A press of the mouse button, however it ends, adds, removes and moves
    nothing: the space, the tracked objects and the camera are as before,
    and every body keeps its position, type, shapes and recorded impulses
    (only angles change). *)
Theorem press_changes_only_angles (st : ProjectileMain) (ev : Event) :
  let st' := final_state (on_mousebuttondown ext ev st) in
  space st' = space st /\ objects st' = objects st /\ camera st' = camera st /\
  forall b,
    position (deref st' b) = position (deref st b) /\
    body_type (deref st' b) = body_type (deref st b) /\
    shapes (deref st' b) = shapes (deref st b) /\
    impulses (deref st' b) = impulses (deref st b).
Proof.
  unfold on_mousebuttondown. run_monad.
  destruct (hit_test_loop_turns_only
              (pointer_to_world ext (camera st) (mouse_get_pos ev))
              (space_bodies (space st)) (set_active_shape None st))
    as (Hs & Ho & Hc & Ha).
  cbn zeta. repeat split; try assumption;
    destruct (Ha b) as [a Hb]; rewrite Hb; reflexivity.
Qed.

Lemma hit_test_loop_miss (p : Point) (bodies : list nat) :
  forall st st',
  hit_test_loop ext p bodies st = Ok tt st' ->
  hits ext (heap st) p bodies = [] ->
  active_shape st' = active_shape st /\ pulling st' = pulling st /\
  heap st' = heap st.
Proof.
  induction bodies as [| body rest IH]; intros st st' Hrun Hmiss.
  - cbn in Hrun. injection Hrun as <-. repeat split.
  - cbn [hit_test_loop] in Hrun. revert Hrun. run_monad.
    unfold hits in Hmiss. cbn [omap list_omap] in Hmiss. unfold hit at 1 in Hmiss.
    unfold deref.
    destruct (BodyType_eqb (body_type (heap st !!! body)) DYNAMIC).
    2:{ intros Hrun. exact (IH _ _ Hrun Hmiss). }
    destruct (shapes (heap st !!! body)) as [| shape others]; [discriminate |].
    cbn [heap set_during_query].
    destruct (point_query ext (heap st !!! shape_body shape) shape p)
      as [distance |]; [| discriminate].
    destruct (Qltb distance 0); [discriminate |].
    intros Hrun. apply IH in Hrun; [| exact Hmiss]. exact Hrun.
Qed.

(** X7.  A press on empty space (no dynamic body of the space contains the
    point) that completes deselects: nothing is selected afterwards, no body
    is touched, and the pulling flag stays as it was. *)
Theorem click_on_empty_space_deselects (st st' : ProjectileMain) (ev : Event) :
  on_mousebuttondown ext ev st = Ok tt st' ->
  hits ext (heap st) (pointer_to_world ext (camera st) (mouse_get_pos ev))
    (space_bodies (space st)) = [] ->
  active_shape st' = None /\ pulling st' = pulling st /\ heap st' = heap st.
Proof.
  unfold on_mousebuttondown. run_monad. intros Hrun Hmiss.
  apply hit_test_loop_miss in Hrun; [| exact Hmiss]. exact Hrun.
Qed.

End Press.

(** A selected projectile and a press away from it. *)
Lemma click_on_empty_space_deselects_witness :
  let st := set_active_shape (Some initial_projectile_shape) init in
  let st' := final_state (on_mousebuttondown sample_ext click_empty_space st) in
  active_shape st' = None /\ pulling st' = pulling st /\ heap st' = heap st.
Proof.
  apply (click_on_empty_space_deselects sample_ext
           (set_active_shape (Some initial_projectile_shape) init)
           (final_state (on_mousebuttondown sample_ext click_empty_space
                           (set_active_shape (Some initial_projectile_shape) init)))
           click_empty_space).
  - vm_compute. reflexivity.
  - vm_compute. reflexivity.
Defined.

(** ** Well-formed states are kept *)

Section WellFormed.

Variable ext : Externals.

Lemma nat_inb_elem_of (n : nat) (l : list nat) : nat_inb n l = true <-> n ∈ l.
Proof.
  unfold nat_inb. rewrite existsb_exists, list_elem_of_In. split.
  - intros (x & Hin & Heq). apply Nat.eqb_eq in Heq. now subst.
  - intros Hin. exists n. split; [exact Hin | apply Nat.eqb_refl].
Qed.

Lemma nat_inb_not_elem_of (n : nat) (l : list nat) : n ∉ l -> nat_inb n l = false.
Proof.
  intros Hn. destruct (nat_inb n l) eqn:H; [| reflexivity].
  apply nat_inb_elem_of in H. contradiction.
Qed.

Lemma elem_of_remove_nat (n x : nat) (l : list nat) :
  x ∈ remove_nat n l <-> x ∈ l /\ x <> n.
Proof.
  unfold remove_nat. rewrite list_elem_of_filter.
  rewrite negb_True, Is_true_true, Nat.eqb_eq. split.
  - intros [Hne Hin]. split; [exact Hin | congruence].
  - intros [Hin Hne]. split; [congruence | exact Hin].
Qed.

Lemma NoDup_remove_nat (n : nat) (l : list nat) : NoDup l -> NoDup (remove_nat n l).
Proof. apply NoDup_filter. Qed.

Lemma same_kinds_refl (h : gmap nat Body) : same_kinds h h.
Proof. now intros b. Qed.

Lemma same_kinds_trans (h1 h2 h3 : gmap nat Body) :
  same_kinds h1 h2 -> same_kinds h2 h3 -> same_kinds h1 h3.
Proof.
  intros H12 H23 b. destruct (H23 b) as [-> ->]. apply H12.
Qed.

Lemma same_kinds_update (h : gmap nat Body) (b : nat) (x : Body) :
  shapes x = shapes (h !!! b) -> body_type x = body_type (h !!! b) ->
  same_kinds h (<[b := x]> h).
Proof.
  intros Hs Ht b'. destruct (decide (b = b')) as [<- | Hne].
  - rewrite lookup_total_insert_eq. now split.
  - rewrite lookup_total_insert_ne by exact Hne. now split.
Qed.

(** The invariant looks at the space, the store, [next_id], the selection
    and the tracked objects only, and at the store only through shapes and
    types. *)
Lemma well_formed_transfer (st st' : ProjectileMain) :
  well_formed st ->
  space st' = space st -> next_id st' = next_id st ->
  objects st' = objects st -> same_kinds (heap st) (heap st') ->
  wf_selection (space st') (heap st') (active_shape st') ->
  well_formed st'.
Proof.
  intros ((Hnb & Hns & Hbf & Hsf & Hone) & _ & (Hnd & Hobj)) Hsp Hn Ho Hk Hsel.
  unfold well_formed. rewrite Hsp, Hn, Ho. split; [| split].
  - repeat split; try assumption.
    + now apply Hone.
    + destruct (Hone b H) as [_ [r Hr]]. exists r.
      destruct (Hk b) as [-> _]. exact Hr.
  - rewrite <- Hsp. exact Hsel.
  - split; [exact Hnd |]. intros o Hin. destruct (Hobj o Hin) as (H1 & H2 & H3).
    destruct (Hk (obstacle_body o)) as [-> ->]. now repeat split.
Qed.

Lemma wf_selection_same_kinds (sp : Space) (h h' : gmap nat Body)
    (act : option Shape) :
  same_kinds h h' -> wf_selection sp h act -> wf_selection sp h' act.
Proof.
  intros Hk Hsel s Hs. destruct (Hsel s Hs) as (H1 & H2 & H3).
  destruct (Hk (shape_body s)) as [-> ->]. now repeat split.
Qed.

Lemma well_formed_same_selection (st st' : ProjectileMain) :
  well_formed st ->
  space st' = space st -> next_id st' = next_id st ->
  objects st' = objects st -> same_kinds (heap st) (heap st') ->
  active_shape st' = active_shape st \/ active_shape st' = None ->
  well_formed st'.
Proof.
  intros Hwf Hsp Hn Ho Hk Hact.
  apply (well_formed_transfer st st' Hwf Hsp Hn Ho Hk).
  destruct Hact as [-> | ->].
  - rewrite Hsp. apply (wf_selection_same_kinds _ _ _ _ Hk). apply Hwf.
  - intros s Hs. discriminate.
Qed.

Lemma well_formed_init : well_formed init.
Proof.
  split; [| split].
  - repeat split.
    + cbn. apply NoDup_singleton.
    + cbn. apply NoDup_singleton.
    + cbn. intros b Hb. apply list_elem_of_singleton in Hb. lia.
    + cbn. intros s Hs. apply list_elem_of_singleton in Hs. lia.
    + cbn in *. apply list_elem_of_singleton in H. subst.
      apply list_elem_of_singleton. reflexivity.
    + cbn in *. apply list_elem_of_singleton in H. subst.
      exists 25%Q. reflexivity.
  - intros s Hs. discriminate.
  - split; [cbn; constructor |]. intros o Ho. cbn in Ho. inversion Ho.
Qed.

End WellFormed.

Section WellFormedParts.

(** Adding a fresh body with its shape. *)
Lemma wf_store_add (sp : Space) (h : gmap nat Body) (n : nat) (body : Body) (r : Q) :
  wf_store sp h n ->
  shapes body = [mkShape (S n) n r] ->
  wf_store (mkSpace (space_bodies sp ++ [n]) (space_shapes sp ++ [S n]))
    (<[n := body]> h) (S (S n)).
Proof.
  intros (Hnb & Hns & Hbf & Hsf & Hone) Hshape. cbn [space_bodies space_shapes].
  split; [| split; [| split; [| split]]].
  - apply NoDup_app. split; [exact Hnb |]. split; [| apply NoDup_singleton].
    intros x Hx Hx'. apply list_elem_of_singleton in Hx'. subst.
    apply Hbf in Hx. lia.
  - apply NoDup_app. split; [exact Hns |]. split; [| apply NoDup_singleton].
    intros x Hx Hx'. apply list_elem_of_singleton in Hx'. subst.
    apply Hsf in Hx. lia.
  - intros b Hb. apply elem_of_app in Hb as [Hb | Hb].
    + apply Hbf in Hb. lia.
    + apply list_elem_of_singleton in Hb. lia.
  - intros s Hs. apply elem_of_app in Hs as [Hs | Hs].
    + apply Hsf in Hs. lia.
    + apply list_elem_of_singleton in Hs. lia.
  - intros b Hb. apply elem_of_app in Hb as [Hb | Hb].
    + destruct (Hone b Hb) as [Hin [r' Hr']]. split.
      * apply elem_of_app. now left.
      * exists r'. rewrite lookup_total_insert_ne; [exact Hr' |].
        apply Hbf in Hb. lia.
    + apply list_elem_of_singleton in Hb. subst b. split.
      * apply elem_of_app. right. now apply list_elem_of_singleton.
      * exists r. now rewrite lookup_total_insert_eq.
Qed.

Lemma wf_selection_add (sp : Space) (h : gmap nat Body) (n : nat) (body : Body)
    (act : option Shape) :
  wf_store sp h n ->
  wf_selection sp h act ->
  wf_selection (mkSpace (space_bodies sp ++ [n]) (space_shapes sp ++ [S n]))
    (<[n := body]> h) act.
Proof.
  intros (_ & _ & Hbf & _) Hsel s Hs. destruct (Hsel s Hs) as (H1 & H2 & H3).
  assert (Hne : n <> shape_body s) by (apply Hbf in H1; lia).
  cbn [space_bodies]. rewrite lookup_total_insert_ne by exact Hne.
  split; [apply elem_of_app; now left | now split].
Qed.

Lemma wf_objects_add (sp : Space) (h : gmap nat Body) (n : nat) (body : Body)
    (objs : list StaticObstacle) :
  wf_store sp h n ->
  wf_objects sp h objs ->
  wf_objects (mkSpace (space_bodies sp ++ [n]) (space_shapes sp ++ [S n]))
    (<[n := body]> h) objs.
Proof.
  intros (_ & _ & Hbf & _) [Hnd Hobj]. split; [exact Hnd |].
  intros o Ho. destruct (Hobj o Ho) as (H1 & H2 & H3).
  assert (Hne : n <> obstacle_body o) by (apply Hbf in H1; lia).
  cbn [space_bodies]. rewrite lookup_total_insert_ne by exact Hne.
  split; [apply elem_of_app; now left | now split].
Qed.

Lemma wf_objects_add_new (sp : Space) (h : gmap nat Body) (n : nat) (body : Body)
    (objs : list StaticObstacle) (o : StaticObstacle) :
  wf_store sp h n ->
  wf_objects sp h objs ->
  obstacle_body o = n ->
  shapes body = [obstacle_shape o] ->
  body_type body = STATIC ->
  wf_objects (mkSpace (space_bodies sp ++ [n]) (space_shapes sp ++ [S n]))
    (<[n := body]> h) (objs ++ [o]).
Proof.
  intros Hst Hobjs Hb Hs Ht.
  pose proof (wf_objects_add sp h n body objs Hst Hobjs) as [Hnd Hobj].
  destruct Hst as (_ & _ & Hbf & _). destruct Hobjs as [_ Hold].
  split.
  - rewrite fmap_app. apply NoDup_app. split; [exact Hnd |].
    split; [| apply NoDup_singleton].
    intros x Hx Hx'. cbn in Hx'. apply list_elem_of_singleton in Hx'. subst x.
    apply list_elem_of_fmap in Hx as (o' & Heq & Ho').
    destruct (Hold o' Ho') as (H1 & _). apply Hbf in H1. lia.
  - intros o' Ho'. apply elem_of_app in Ho' as [Ho' | Ho'].
    + now apply Hobj.
    + apply list_elem_of_singleton in Ho'. subst o'. cbn [space_bodies].
      rewrite Hb, lookup_total_insert_eq.
      split; [apply elem_of_app; right; now apply list_elem_of_singleton |].
      now split.
Qed.

(** Taking a body and its shape out of the space. *)
Lemma wf_store_remove (sp : Space) (h : gmap nat Body) (n b : nat) :
  wf_store sp h n ->
  wf_store (mkSpace (remove_nat b (space_bodies sp))
                    (remove_nat (S b) (space_shapes sp))) h n.
Proof.
  intros (Hnb & Hns & Hbf & Hsf & Hone). cbn [space_bodies space_shapes].
  split; [| split; [| split; [| split]]].
  - now apply NoDup_remove_nat.
  - now apply NoDup_remove_nat.
  - intros x Hx. apply elem_of_remove_nat in Hx as [Hx _]. now apply Hbf.
  - intros x Hx. apply elem_of_remove_nat in Hx as [Hx _]. now apply Hsf.
  - intros x Hx. apply elem_of_remove_nat in Hx as [Hx Hne].
    destruct (Hone x Hx) as [Hin Hr]. split; [| exact Hr].
    apply elem_of_remove_nat. split; [exact Hin | lia].
Qed.

Lemma wf_selection_remove (sp : Space) (h : gmap nat Body) (b : nat)
    (act : option Shape) :
  wf_selection sp h act ->
  (forall s, act = Some s -> shape_body s <> b) ->
  wf_selection (mkSpace (remove_nat b (space_bodies sp))
                        (remove_nat (S b) (space_shapes sp))) h act.
Proof.
  intros Hsel Hne s Hs. destruct (Hsel s Hs) as (H1 & H2 & H3).
  cbn [space_bodies]. split; [| now split].
  apply elem_of_remove_nat. split; [exact H1 | now apply Hne].
Qed.

Lemma wf_objects_remove (sp : Space) (h : gmap nat Body) (b : nat)
    (objs objs' : list StaticObstacle) :
  wf_objects sp h objs ->
  NoDup (obstacle_body <$> objs') ->
  (forall o, o ∈ objs' -> o ∈ objs /\ obstacle_body o <> b) ->
  wf_objects (mkSpace (remove_nat b (space_bodies sp))
                      (remove_nat (S b) (space_shapes sp))) h objs'.
Proof.
  intros [_ Hobj] Hnd Hsub. split; [exact Hnd |].
  intros o Ho. destruct (Hsub o Ho) as [Hin Hne].
  destruct (Hobj o Hin) as (H1 & H2 & H3). cbn [space_bodies].
  split; [| now split]. apply elem_of_remove_nat. now split.
Qed.

(** In a well-formed state the selected shape and the tracked objects can
    be taken out of the space: both the shape and the body are there. *)
Lemma selection_in_space (st : ProjectileMain) (s : Shape) :
  well_formed st -> active_shape st = Some s ->
  shape_id s = S (shape_body s) /\
  nat_inb (shape_id s) (space_shapes (space st)) = true /\
  nat_inb (shape_body s) (space_bodies (space st)) = true.
Proof.
  intros ((_ & _ & _ & _ & Hone) & Hsel & _) Hs.
  destruct (Hsel s Hs) as (Hin & Hshapes & _).
  destruct (Hone _ Hin) as [Hsin [r Hr]].
  rewrite Hshapes in Hr. injection Hr as Hr.
  assert (Hid : shape_id s = S (shape_body s)) by (rewrite Hr at 1; reflexivity).
  split; [exact Hid |]. split; apply nat_inb_elem_of; [now rewrite Hid | exact Hin].
Qed.

Lemma object_in_space (st : ProjectileMain) (o : StaticObstacle) :
  well_formed st -> o ∈ objects st ->
  shape_id (obstacle_shape o) = S (obstacle_body o) /\
  nat_inb (shape_id (obstacle_shape o)) (space_shapes (space st)) = true /\
  nat_inb (obstacle_body o) (space_bodies (space st)) = true.
Proof.
  intros ((_ & _ & _ & _ & Hone) & _ & (_ & Hobj)) Ho.
  destruct (Hobj o Ho) as (Hin & Hshapes & _).
  destruct (Hone _ Hin) as [Hsin [r Hr]].
  rewrite Hshapes in Hr. injection Hr as Hr.
  assert (Hid : shape_id (obstacle_shape o) = S (obstacle_body o))
    by (rewrite Hr at 1; reflexivity).
  split; [exact Hid |]. split; apply nat_inb_elem_of; [now rewrite Hid | exact Hin].
Qed.

End WellFormedParts.

Section WellFormedEvents.

Variable ext : Externals.

Lemma hit_test_loop_well_formed (p : Point) (bodies : list nat) :
  forall st,
  well_formed st ->
  (forall b, b ∈ bodies -> b ∈ space_bodies (space st)) ->
  match hit_test_loop ext p bodies st with
  | Ok _ st' => well_formed st'
  | Raised e _ => e = EngineError
  | Returned _ _ => False
  end.
Proof.
  induction bodies as [| body rest IH]; intros st Hwf Hsub.
  - exact Hwf.
  - assert (Hin : body ∈ space_bodies (space st)) by (apply Hsub; left).
    assert (Hrest : forall b, b ∈ rest -> b ∈ space_bodies (space st)).
    { intros b Hb. apply Hsub. now right. }
    destruct Hwf as (Hstore & Hsel & Hobjs).
    pose proof Hstore as (_ & _ & _ & _ & Hone).
    destruct (Hone body Hin) as [_ [r Hr]].
    assert (Hwf : well_formed st) by (now split).
    cbn [hit_test_loop]. run_monad. unfold deref.
    destruct (BodyType_eqb (body_type (heap st !!! body)) DYNAMIC) eqn:Hdyn;
      [| now apply IH].
    rewrite Hr. simpl_fields. cbn [shape_body].
    destruct (point_query ext (heap st !!! body) (mkShape (S body) body r) p)
      as [distance |]; [| reflexivity].
    destruct (Qltb distance 0).
    + apply IH; [| exact Hrest].
      apply (well_formed_transfer st); try reflexivity; [exact Hwf | |].
      * simpl_fields. apply same_kinds_update; reflexivity.
      * simpl_fields. intros s Hs. injection Hs as <-. cbn [shape_body].
        rewrite lookup_total_insert_eq. cbn [shapes body_type with_angle].
        split; [exact Hin |]. split; [exact Hr |]. now apply BodyType_eqb_eq.
    + apply IH; [| exact Hrest].
      apply (well_formed_same_selection st); try reflexivity; [exact Hwf | |].
      * apply same_kinds_refl.
      * now left.
Qed.

Lemma on_mousebuttondown_well_formed (st : ProjectileMain) (ev : Event) :
  well_formed st ->
  match on_mousebuttondown ext ev st with
  | Ok _ st' => well_formed st'
  | Raised e _ => e = EngineError
  | Returned _ _ => False
  end.
Proof.
  intros Hwf. unfold on_mousebuttondown. run_monad.
  apply hit_test_loop_well_formed.
  - apply (well_formed_same_selection st); try reflexivity; [exact Hwf | |].
    + apply same_kinds_refl.
    + now right.
  - intros b Hb. exact Hb.
Qed.

Lemma on_mousebuttonup_well_formed (st : ProjectileMain) (ev : Event) :
  well_formed st ->
  match on_mousebuttonup ext ev st with
  | Ok _ st' => well_formed st'
  | Raised e _ => e = AttributeError /\ pulling st = true /\ active_shape st = None
  | Returned _ _ => False
  end.
Proof.
  intros Hwf. destruct (pulling st) eqn:Hp.
  - destruct (active_shape st) as [shape |] eqn:Ha.
    + rewrite (on_mousebuttonup_pulling ext st ev shape Hp Ha).
      apply (well_formed_same_selection st); try reflexivity; [exact Hwf | |].
      * simpl_fields. apply same_kinds_update; reflexivity.
      * now left.
    + unfold on_mousebuttonup. run_monad. rewrite Hp, Ha. now repeat split.
  - unfold on_mousebuttonup. run_monad. rewrite Hp. exact Hwf.
Qed.

(** What [c] does when no entry is busy and the identities are fresh. *)
Lemma create_projectile_spawns (st : ProjectileMain) (ev : Event) :
  any_entry_busy st = false ->
  wf_store (space st) (heap st) (next_id st) ->
  create_projectile ext ev st =
    Ok tt
      (set_space
         (mkSpace (space_bodies (space st) ++ [next_id st])
                  (space_shapes (space st) ++ [S (next_id st)]))
         (set_heap
            (<[next_id st :=
                 mkBody (vec_of_point
                           (pointer_to_world ext (camera st) (mouse_get_pos ev)))
                   0 DYNAMIC [mkShape (S (next_id st)) (next_id st) 20] []]>
               (heap st))
            (set_next_id (S (S (next_id st))) st))).
Proof.
  intros Hidle (_ & _ & Hbf & Hsf & _).
  unfold create_projectile. run_monad. rewrite Hidle.
  unfold Projectile, space_add. run_monad. simpl_fields. cbn [fst snd shape_id].
  rewrite nat_inb_not_elem_of.
  2:{ intros Hin. apply Hbf in Hin. lia. }
  rewrite nat_inb_not_elem_of.
  2:{ intros Hin. apply Hsf in Hin. lia. }
  reflexivity.
Qed.

Lemma create_projectile_well_formed (st : ProjectileMain) (ev : Event) :
  well_formed st ->
  exists st', create_projectile ext ev st = Ok tt st' /\ well_formed st'.
Proof.
  intros Hwf. destruct (any_entry_busy st) eqn:Hbusy.
  - exists st. split; [| exact Hwf].
    unfold create_projectile. run_monad. now rewrite Hbusy.
  - destruct Hwf as (Hstore & Hsel & Hobjs).
    eexists. split; [apply create_projectile_spawns; assumption |].
    unfold well_formed. simpl_fields. split; [| split].
    + eapply wf_store_add; [exact Hstore | reflexivity].
    + now apply wf_selection_add.
    + now apply wf_objects_add.
Qed.

(** What Backspace does to a selection. *)
Lemma backspace_removes_selection (st : ProjectileMain) (ev : Event) (s : Shape) :
  well_formed st ->
  active_shape st = Some s ->
  on_keydown ext K_BACKSPACE ev st =
    Ok tt
      (set_active_shape None
         (set_space
            (mkSpace (remove_nat (shape_body s) (space_bodies (space st)))
                     (remove_nat (S (shape_body s)) (space_shapes (space st))))
            st)).
Proof.
  intros Hwf Hs. destruct (selection_in_space st s Hwf Hs) as (Hid & Hsin & Hbin).
  unfold on_keydown. run_monad. rewrite Hs.
  rewrite (space_remove_present s (shape_body s) st Hsin Hbin).
  rewrite Hid. reflexivity.
Qed.

Lemma on_keydown_well_formed (st : ProjectileMain) (key : Key) (ev : Event) :
  well_formed st ->
  match on_keydown ext key ev st with
  | Ok _ st' => well_formed st'
  | Raised _ _ => False
  | Returned c _ => c = 0 /\ key = K_ESCAPE
  end.
Proof.
  intros Hwf. destruct key; try exact Hwf.
  - cbn. now split.
  - cbn [on_keydown].
    destruct (create_projectile_well_formed st ev Hwf) as (st' & -> & Hwf').
    exact Hwf'.
  - destruct (active_shape st) as [s |] eqn:Hs.
    + rewrite (backspace_removes_selection st ev s Hwf Hs).
      destruct Hwf as (Hstore & Hsel & Hobjs).
      destruct (Hsel s Hs) as (Hin & Hshapes & Hdyn).
      unfold well_formed. simpl_fields. split; [| split].
      * now apply wf_store_remove.
      * intros s' Hs'. discriminate.
      * apply (wf_objects_remove _ _ _ (objects st)); [exact Hobjs | apply Hobjs |].
        intros o Ho. split; [exact Ho |]. intros Heq.
        destruct Hobjs as [_ Hobj]. destruct (Hobj o Ho) as (_ & _ & Hstatic).
        rewrite Heq in Hstatic. congruence.
    + unfold on_keydown. run_monad. rewrite Hs. exact Hwf.
Qed.


End WellFormedEvents.

Section WellFormedButtons.

Lemma entry_get_int_ok (e : Entry) (z : Z) (st : ProjectileMain) :
  text e <> EmptyString -> parse_digits 0 (text e) = Some z ->
  entry_get_int e st = Ok z st.
Proof.
  intros Hne Hp. unfold entry_get_int.
  destruct (text e) as [| c r] eqn:Ht; [contradiction |]. now rewrite Hp.
Qed.

Lemma entry_get_int_cases (e : Entry) (st : ProjectileMain) :
  (exists z, entry_get_int e st = Ok z st) \/
  entry_get_int e st = Raised ValueError st.
Proof.
  unfold entry_get_int. destruct (text e) as [| c r]; [now right |].
  destruct (parse_digits 0 (String c r)) as [z |]; [left; now exists z | now right].
Qed.

(** What [create] does once the three numbers are read. *)
Lemma create_succeeds (st : ProjectileMain) (shape : string) (x y m : Z) :
  ready_to_step st = false -> during_query st = false ->
  existsb (fun entry => negb (py_bool_str (entry_get entry))) (entries st) = false ->
  entry_get_int (entry_pos_x st) st = Ok x st ->
  entry_get_int (entry_pos_y st) st = Ok y st ->
  entry_get_int (entry_multiplier st) st = Ok m st ->
  wf_store (space st) (heap st) (next_id st) ->
  create shape st =
    Ok tt
      (set_space
         (mkSpace (space_bodies (space st) ++ [next_id st])
                  (space_shapes (space st) ++ [S (next_id st)]))
         (set_label_info ""
            (set_show_info false
               (set_objects
                  (objects st ++
                   [mkStaticObstacle (entry_get (entry_name st)) shape
                      (if String.eqb (selected_object st) "Circle"
                       then Radius m else Multiplier m)
                      (next_id st)
                      (mkShape (S (next_id st)) (next_id st) (inject_Z m))])
                  (set_heap
                     (<[next_id st :=
                          mkBody (vec_of_point (x, y)) 0 STATIC
                            [mkShape (S (next_id st)) (next_id st) (inject_Z m)] []]>
                        (heap st))
                     (set_next_id (S (S (next_id st))) st)))))).
Proof.
  intros Hr Hq Hfilled Hx Hy Hm (_ & _ & Hbf & Hsf & _).
  unfold create. run_monad. rewrite Hr, Hq. cbn [orb negb andb].
  rewrite Hfilled, Hx, Hy, Hm.
  unfold new_StaticObstacle, label_info_config, space_add. run_monad. simpl_fields.
  cbn [obstacle_body obstacle_shape shape_id].
  assert (Hsize : (match (if String.eqb (selected_object st) "Circle"
                          then Radius m else Multiplier m) with
                   | Radius r => r | Multiplier m0 => m0 end) = m).
  { now destruct (String.eqb (selected_object st) "Circle"). }
  rewrite Hsize.
  rewrite nat_inb_not_elem_of.
  2:{ intros Hin. apply Hbf in Hin. lia. }
  rewrite nat_inb_not_elem_of.
  2:{ intros Hin. apply Hsf in Hin. lia. }
  reflexivity.
Qed.

Lemma create_well_formed (st : ProjectileMain) (shape : string) :
  well_formed st ->
  match create shape st with
  | Ok _ st' => well_formed st'
  | Raised e st' => e = ValueError /\ st' = st
  | Returned _ _ => False
  end.
Proof.
  intros Hwf.
  destruct (ready_to_step st || during_query st) eqn:Hguard.
  { unfold create. run_monad. rewrite Hguard. unfold label_info_config. run_monad.
    apply (well_formed_same_selection st); try reflexivity; [exact Hwf | |].
    - apply same_kinds_refl.
    - now left. }
  apply orb_false_elim in Hguard as [Hr Hq].
  destruct (existsb (fun entry => negb (py_bool_str (entry_get entry))) (entries st))
    eqn:Hfilled.
  { unfold create. run_monad. rewrite Hr, Hq. cbn [orb negb andb]. rewrite Hfilled.
    unfold label_info_config. run_monad.
    apply (well_formed_same_selection st); try reflexivity; [exact Hwf | |].
    - apply same_kinds_refl.
    - now left. }
  destruct (entry_get_int_cases (entry_pos_x st) st) as [[x Hx] | Hx].
  2:{ unfold create. run_monad. rewrite Hr, Hq. cbn [orb negb andb].
      rewrite Hfilled, Hx. now split. }
  destruct (entry_get_int_cases (entry_pos_y st) st) as [[y Hy] | Hy].
  2:{ unfold create. run_monad. rewrite Hr, Hq. cbn [orb negb andb].
      rewrite Hfilled, Hx, Hy. now split. }
  destruct (entry_get_int_cases (entry_multiplier st) st) as [[m Hm] | Hm].
  2:{ unfold create. run_monad. rewrite Hr, Hq. cbn [orb negb andb].
      rewrite Hfilled, Hx, Hy, Hm. now split. }
  destruct Hwf as (Hstore & Hsel & Hobjs).
  rewrite (create_succeeds st shape x y m Hr Hq Hfilled Hx Hy Hm Hstore).
  unfold well_formed. simpl_fields. split; [| split].
  - eapply wf_store_add; [exact Hstore | reflexivity].
  - now apply wf_selection_add.
  - now apply wf_objects_add_new.
Qed.

Lemma list_remove_spec (o : StaticObstacle) (l : list StaticObstacle) :
  NoDup (obstacle_body <$> l) ->
  NoDup (obstacle_body <$> list_remove o l) /\
  forall x, x ∈ list_remove o l -> x ∈ l /\ obstacle_body x <> obstacle_body o.
Proof.
  induction l as [| y r IH]; intros Hnd.
  - split; [exact Hnd |]. intros x Hx. cbn in Hx. inversion Hx.
  - cbn [fmap list_fmap] in Hnd. apply NoDup_cons in Hnd as [Hy Hnd].
    cbn [list_remove].
    destruct (Nat.eqb (obstacle_body o) (obstacle_body y)) eqn:Heq.
    + apply Nat.eqb_eq in Heq. split; [exact Hnd |].
      intros x Hx. split; [now right |]. intros Hxo. apply Hy.
      rewrite <- Heq, <- Hxo. now apply list_elem_of_fmap_2.
    + apply Nat.eqb_neq in Heq. destruct (IH Hnd) as [Hnd' Hsub]. split.
      * cbn [fmap list_fmap]. apply NoDup_cons. split; [| exact Hnd'].
        intros Hin. apply list_elem_of_fmap in Hin as (x & Hxy & Hx).
        apply Hy. rewrite Hxy. apply list_elem_of_fmap_2. now apply Hsub.
      * intros x Hx. apply elem_of_cons in Hx as [-> | Hx].
        -- split; [now left | congruence].
        -- destruct (Hsub x Hx) as [H1 H2]. split; [now right | exact H2].
Qed.

Lemma remove_loop_well_formed (n : string) (indices : list nat) :
  forall st, well_formed st ->
  exists st', remove_loop indices n st = Ok tt st' /\ well_formed st' /\
    show_info st' = show_info st /\ label_info st' = label_info st.
Proof.
  induction indices as [| i rest IH]; intros st Hwf.
  - exists st. split; [reflexivity |]. split; [exact Hwf |]. now split.
  - cbn [remove_loop]. run_monad.
    destruct (objects st !! i) as [o |] eqn:Hi.
    2:{ exists st. split; [reflexivity |]. split; [exact Hwf |]. now split. }
    destruct (String.eqb (name o) n); [| now apply IH].
    assert (Ho : o ∈ objects st) by (eapply list_elem_of_lookup_2; exact Hi).
    destruct (object_in_space st o Hwf Ho) as (Hid & Hsin & Hbin).
    rewrite (space_remove_present _ _ st Hsin Hbin). simpl_fields.
    match goal with
    | |- exists st', remove_loop _ _ ?st2 = _ /\ _ =>
        destruct (IH st2) as (st' & Hrun & Hwf' & Hshow & Hlabel)
    end.
    + destruct Hwf as (Hstore & Hsel & Hobjs). pose proof Hobjs as [Hnd Hobj].
      destruct (list_remove_spec o (objects st) Hnd) as [Hnd' Hsub].
      destruct (Hobj o Ho) as (_ & _ & Hstatic).
      unfold well_formed. simpl_fields. rewrite Hid. split; [| split].
      * now apply wf_store_remove.
      * apply wf_selection_remove; [exact Hsel |].
        intros s Hs Heq. destruct (Hsel s Hs) as (_ & _ & Hdyn).
        rewrite Heq in Hdyn. congruence.
      * now apply (wf_objects_remove _ _ _ (objects st)).
    + exists st'. split; [exact Hrun |]. split; [exact Hwf' |].
      split; [exact Hshow | exact Hlabel].
Qed.

Lemma remove_well_formed (st : ProjectileMain) :
  well_formed st -> exists st', remove st = Ok tt st' /\ well_formed st'.
Proof.
  intros Hwf. unfold remove. run_monad.
  destruct (ready_to_step st || during_query st) eqn:Hguard.
  { unfold label_info_config. run_monad. eexists. split; [reflexivity |].
    apply (well_formed_same_selection st); try reflexivity; [exact Hwf | |].
    - apply same_kinds_refl.
    - now left. }
  apply orb_false_elim in Hguard as [Hr Hq]. rewrite Hr, Hq. cbn [negb andb].
  destruct (negb (py_bool_str (entry_get (entry_name st)))).
  { unfold label_info_config. run_monad. eexists. split; [reflexivity |].
    apply (well_formed_same_selection st); try reflexivity; [exact Hwf | |].
    - apply same_kinds_refl.
    - now left. }
  unfold label_info_config. run_monad.
  match goal with
  | |- exists st', remove_loop ?l ?n ?st2 = _ /\ _ =>
      destruct (remove_loop_well_formed n l st2) as (st' & Hrun & Hwf' & _)
  end.
  - apply (well_formed_same_selection st); try reflexivity; [exact Hwf | |].
    + apply same_kinds_refl.
    + now left.
  - exists st'. now split.
Qed.

End WellFormedButtons.

Section WellFormedLoop.

Variable ext : Externals.

(** The overlay changes nothing; it fails in one case only, reading a
    pointer position that no [MOUSEMOTION] has set. *)
Lemma draw_overlay_outcome (st : ProjectileMain) :
  draw_overlay ext st = Ok tt st \/
  (draw_overlay ext st = Raised AttributeError st /\
   is_Some (active_shape st) /\ pulling st = true /\ m_position st = None).
Proof.
  unfold draw_overlay, overlay_position. run_monad.
  destruct (active_shape st) as [shape |] eqn:Hact; [| now left].
  destruct (pulling st) eqn:Hp; [| now left].
  destruct (m_position st) eqn:Hm; [now left |].
  right. repeat split. now exists shape.
Qed.




End WellFormedLoop.

(** X8.  Handling one event in a well-formed state never trips the engine's
    assertions and never finds a body without a shape.  Either the handler
    completes and the state is well formed again, or it is Escape and the
    main loop returns 0, or one of two errors escapes: the [AttributeError]
    of a release while pulling with nothing selected, or an error raised by
    the point query of a press. *)
Theorem event_keeps_well_formed (ext : Externals) (st : ProjectileMain) (ev : Event) :
  well_formed st ->
  match handle_event ext ev st with
  | Ok _ st' => well_formed st'
  | Raised e _ =>
      (e = AttributeError /\ etype ev = MOUSEBUTTONUP /\
       pulling st = true /\ active_shape st = None) \/
      (e = EngineError /\ etype ev = MOUSEBUTTONDOWN)
  | Returned c _ => c = 0 /\ etype ev = KEYDOWN K_ESCAPE
  end.
Proof.
  intros Hwf.
  assert (Hwf1 : well_formed (set_entries (handle_entry_events ext ev) st)).
  { apply (well_formed_same_selection st); try reflexivity; [exact Hwf | |].
    - apply same_kinds_refl.
    - now left. }
  unfold handle_event. run_monad.
  destruct (etype ev) as [| key | | | |] eqn:Hev; try exact Hwf1.
  - pose proof (on_keydown_well_formed ext _ key ev Hwf1) as H.
    destruct (on_keydown ext key ev _);
      [exact H | destruct H | destruct H as [-> ->]; now split].
  - pose proof (on_mousebuttondown_well_formed ext _ ev Hwf1) as H.
    destruct (on_mousebuttondown ext ev _);
      [exact H | right; now split | destruct H].
  - pose proof (on_mousebuttonup_well_formed ext _ ev Hwf1) as H.
    destruct (on_mousebuttonup ext ev _); [exact H | | destruct H].
    left. destruct H as (-> & Hp & Ha). now repeat split.
Qed.

Lemma event_keeps_well_formed_witness :
  match handle_event sample_ext click_projectile init with
  | Ok _ st' => well_formed st'
  | Raised e _ =>
      (e = AttributeError /\ etype click_projectile = MOUSEBUTTONUP /\
       pulling init = true /\ active_shape init = None) \/
      (e = EngineError /\ etype click_projectile = MOUSEBUTTONDOWN)
  | Returned c _ => c = 0 /\ etype click_projectile = KEYDOWN K_ESCAPE
  end.
Proof.
  apply (event_keeps_well_formed sample_ext init click_projectile).
  exact well_formed_init.
Defined.

(** X9.  The button commands in a well-formed state: [remove] always completes,
    [create] completes unless a numeric field does not hold a number (a
    [ValueError], with nothing changed), and both leave the state well
    formed; the engine never refuses the add or the remove. *)
Theorem buttons_keep_well_formed (st : ProjectileMain) (shape : string) :
  well_formed st ->
  match create shape st with
  | Ok _ st' => well_formed st'
  | Raised e st' => e = ValueError /\ st' = st
  | Returned _ _ => False
  end /\
  exists st', remove st = Ok tt st' /\ well_formed st'.
Proof.
  intros Hwf. split; [now apply create_well_formed | now apply remove_well_formed].
Qed.

Lemma buttons_keep_well_formed_witness :
  match create "Circle" form_filled with
  | Ok _ st' => well_formed st'
  | Raised e st' => e = ValueError /\ st' = form_filled
  | Returned _ _ => False
  end /\
  exists st', remove form_filled = Ok tt st' /\ well_formed st'.
Proof.
  apply (buttons_keep_well_formed form_filled "Circle").
  apply (well_formed_same_selection init); try reflexivity.
  - exact well_formed_init.
  - apply same_kinds_refl.
  - now left.
Defined.




(** ** Deleting and spawning projectiles *)

Section DeleteAndSpawn.

Variable ext : Externals.

(** X11.  Backspace in a well-formed state.  With a shape selected, the shape and
    its body are taken out of the space (the engine does not object),
    nothing stays selected, and the tracked objects, the bodies' data and
    the pulling flag are left as they are; the body can no longer be hit.
    With nothing selected, only the entries see the key. *)
Theorem backspace_deletes_selection (st : ProjectileMain) (ev : Event) :
  well_formed st ->
  etype ev = KEYDOWN K_BACKSPACE ->
  (forall s, active_shape st = Some s ->
     exists st', handle_event ext ev st = Ok tt st' /\
       active_shape st' = None /\
       space_bodies (space st') = remove_nat (shape_body s) (space_bodies (space st)) /\
       space_shapes (space st') = remove_nat (shape_id s) (space_shapes (space st)) /\
       (shape_body s ∉ space_bodies (space st')) /\
       objects st' = objects st /\ heap st' = heap st /\ pulling st' = pulling st) /\
  (active_shape st = None ->
     handle_event ext ev st = Ok tt (set_entries (handle_entry_events ext ev) st)).
Proof.
  intros Hwf Hev.
  assert (Hwf1 : well_formed (set_entries (handle_entry_events ext ev) st)).
  { apply (well_formed_same_selection st); try reflexivity; [exact Hwf | |].
    - apply same_kinds_refl.
    - now left. }
  split.
  - intros s Hs. eexists. split.
    + unfold handle_event. run_monad. rewrite Hev.
      apply (backspace_removes_selection ext _ ev s Hwf1). exact Hs.
    + destruct (selection_in_space st s Hwf Hs) as (Hid & _ & _).
      simpl_fields. rewrite Hid. repeat split.
      intros Hin. apply elem_of_remove_nat in Hin as [_ Hne]. now apply Hne.
  - intros Hnone. unfold handle_event. run_monad. rewrite Hev.
    unfold on_keydown. run_monad. simpl_fields. now rewrite Hnone.
Qed.

(** The selection is kept in step with the pulling flag by the loop of the
    hit test. *)
Lemma hit_test_loop_pulling (p : Point) (bodies : list nat) :
  forall st st',
  (is_Some (active_shape st) -> pulling st = true) ->
  hit_test_loop ext p bodies st = Ok tt st' ->
  is_Some (active_shape st') -> pulling st' = true.
Proof.
  induction bodies as [| body rest IH]; intros st st' Hinv Hrun.
  - cbn in Hrun. injection Hrun as <-. exact Hinv.
  - cbn [hit_test_loop] in Hrun. revert Hrun. run_monad.
    destruct (BodyType_eqb (body_type (deref st body)) DYNAMIC);
      [| intros Hrun; exact (IH _ _ Hinv Hrun)].
    destruct (shapes (deref st body)) as [| shape others]; [discriminate |].
    destruct (point_query ext _ shape p) as [distance |]; [| discriminate].
    destruct (Qltb distance 0); intros Hrun.
    + refine (IH _ _ _ Hrun). intros _. reflexivity.
    + refine (IH _ _ _ Hrun). exact Hinv.
Qed.

Lemma well_formed_bodies_distinct (st : ProjectileMain) :
  well_formed st ->
  List.NoDup (space_bodies (space st)) /\
  first_shape_attached (heap st) (space_bodies (space st)).
Proof.
  intros ((Hnb & _ & _ & _ & Hone) & _ & _). split.
  - now apply NoDup_ListNoDup.
  - intros b s Hin Hhead. apply list_elem_of_In in Hin.
    destruct (Hone b Hin) as [_ [r Hr]]. rewrite Hr in Hhead.
    injection Hhead as <-. reflexivity.
Qed.

(** X12.  Spawn and pick.  In a well-formed state with no entry busy, [c]
    creates a dynamic projectile of radius 20 at the point under the
    pointer, last in the space.  A press that follows and completes selects
    that projectile whenever its shape contains the pressed point, whatever
    other bodies contain it too, and sets the pulling flag. *)
Theorem spawned_projectile_wins_the_press
    (st st' : ProjectileMain) (ev_c ev_press : Event) (d : Q) :
  well_formed st ->
  etype ev_c = KEYDOWN K_c ->
  etype ev_press = MOUSEBUTTONDOWN ->
  any_entry_busy (set_entries (handle_entry_events ext ev_c) st) = false ->
  let b := next_id st in
  let shape := mkShape (S b) b 20 in
  let body := mkBody (vec_of_point
                        (pointer_to_world ext (camera st) (mouse_get_pos ev_c)))
                0 DYNAMIC [shape] [] in
  point_query ext body shape
    (pointer_to_world ext (camera st) (mouse_get_pos ev_press)) = Some d ->
  Qltb d 0 = true ->
  handle_events ext [ev_c; ev_press] st = Ok tt st' ->
  active_shape st' = Some shape /\ pulling st' = true /\
  last (space_bodies (space st')) = Some b /\
  body_type (deref st' b) = DYNAMIC.
Proof.
  intros Hwf Hc Hpress Hidle b shape body Hquery Hneg.
  assert (Hwf1 : well_formed (set_entries (handle_entry_events ext ev_c) st)).
  { apply (well_formed_same_selection st); try reflexivity; [exact Hwf | |].
    - apply same_kinds_refl.
    - now left. }
  cbn [handle_events]. run_monad.
  unfold handle_event at 1. run_monad. rewrite Hc. cbn [on_keydown].
  rewrite (create_projectile_spawns ext _ ev_c Hidle (proj1 Hwf1)). simpl_fields.
  fold b. fold shape. fold body.
  match goal with
  | |- match handle_event _ _ ?st1 with _ => _ end = _ -> _ =>
      set (spawned := st1);
      assert (Hwf2 : well_formed spawned)
  end.
  { pose proof (create_projectile_well_formed ext _ ev_c Hwf1) as (st2 & Hrun & Hwf2).
    rewrite (create_projectile_spawns ext _ ev_c Hidle (proj1 Hwf1)) in Hrun.
    injection Hrun as <-. exact Hwf2. }
  unfold handle_event. run_monad. rewrite Hpress.
  set (pressed := set_entries (handle_entry_events ext ev_press) spawned).
  assert (Hwf3 : well_formed pressed).
  { apply (well_formed_same_selection spawned); try reflexivity; [exact Hwf2 | |].
    - apply same_kinds_refl.
    - now left. }
  destruct (on_mousebuttondown ext ev_press pressed) as [[] st3 | |] eqn:Hrun;
    [| discriminate | discriminate].
  intros Heq. injection Heq as <-.
  pose proof (press_frame := hit_test_loop_turns_only ext
    (pointer_to_world ext (camera pressed) (mouse_get_pos ev_press))
    (space_bodies (space pressed)) (set_active_shape None pressed)).
  unfold on_mousebuttondown in Hrun. revert Hrun. run_monad. intros Hrun.
  rewrite Hrun in press_frame. cbn [final_state] in press_frame.
  destruct press_frame as (Hspace & _ & _ & Hangles).
  destruct (well_formed_bodies_distinct pressed Hwf3) as [Hnd Hatt].
  pose proof (hit_test_loop_last ext _ _ (set_active_shape None pressed) st3
                Hnd Hatt Hrun) as Hlast.
  pose proof (hit_test_loop_pulling _ _ (set_active_shape None pressed) st3
                (fun H => match is_Some_None H with end) Hrun) as Hpull.
  assert (Hhits : last (hits ext (heap pressed)
                          (pointer_to_world ext (camera pressed) (mouse_get_pos ev_press))
                          (space_bodies (space pressed))) = Some shape).
  { assert (Hhit : hit ext (<[b := body]> (heap st))
                     (pointer_to_world ext (camera st) (mouse_get_pos ev_press)) b
                   = Some shape).
    { unfold hit. rewrite lookup_total_insert_eq.
      cbn [body body_type BodyType_eqb shapes shape shape_body].
      rewrite lookup_total_insert_eq. fold shape. fold body.
      now rewrite Hquery, Hneg. }
    unfold pressed, spawned. simpl_fields. unfold hits. rewrite omap_app.
    cbn [omap list_omap]. rewrite Hhit. apply last_snoc. }
  cbn [heap set_active_shape active_shape] in Hlast. rewrite Hhits in Hlast.
  split; [exact Hlast |]. split; [apply Hpull; rewrite Hlast; eauto |].
  assert (Hbody : exists a, deref st3 b = with_angle a body).
  { destruct (Hangles b) as [a Ha]. exists a. rewrite Ha.
    unfold deref, pressed, spawned. simpl_fields.
    now rewrite lookup_total_insert_eq. }
  destruct Hbody as [a Hbody].
  split; [rewrite Hspace; unfold pressed, spawned; simpl_fields; apply last_snoc |].
  now rewrite Hbody.
Qed.

End DeleteAndSpawn.

Lemma well_formed_selected_init :
  well_formed (set_active_shape (Some initial_projectile_shape) init).
Proof.
  apply (well_formed_transfer init); try reflexivity.
  - exact well_formed_init.
  - apply same_kinds_refl.
  - intros s Hs. injection Hs as <-. cbn.
    split; [now apply list_elem_of_singleton | now split].
Qed.

(** Backspace with the first projectile selected. *)
Lemma backspace_deletes_selection_witness :
  exists st',
    handle_event sample_ext press_backspace
      (set_active_shape (Some initial_projectile_shape) init) = Ok tt st' /\
    active_shape st' = None /\
    space_bodies (space st') = remove_nat 0 (space_bodies (space init)) /\
    space_shapes (space st') = remove_nat 1 (space_shapes (space init)) /\
    (0%nat ∉ space_bodies (space st')) /\
    objects st' = objects init /\ heap st' = heap init /\ pulling st' = pulling init.
Proof.
  destruct (backspace_deletes_selection sample_ext
              (set_active_shape (Some initial_projectile_shape) init) press_backspace
              well_formed_selected_init eq_refl) as [H _].
  exact (H initial_projectile_shape eq_refl).
Defined.

(** [c] with the pointer at (110, 100), then a press at (105, 100), inside
    both the new projectile and the first one. *)
Lemma spawned_projectile_wins_the_press_witness :
  let st' := final_state (handle_events sample_ext [spawn_projectile; click_overlap] init) in
  active_shape st' = Some (mkShape 3 2 20) /\ pulling st' = true /\
  last (space_bodies (space st')) = Some 2%nat /\
  body_type (deref st' 2%nat) = DYNAMIC.
Proof.
  apply (spawned_projectile_wins_the_press sample_ext init
           (final_state (handle_events sample_ext [spawn_projectile; click_overlap] init))
           spawn_projectile click_overlap (- (375))%Q).
  - exact well_formed_init.
  - reflexivity.
  - reflexivity.
  - reflexivity.
  - reflexivity.
  - reflexivity.
  - vm_compute. reflexivity.
Defined.

(** ** The step guard, the info label and leaving the loop *)

Section FrameLoop.

Variable ext : Externals.

Lemma hit_test_loop_ready_to_step (p : Point) (bodies : list nat) :
  forall st,
  ready_to_step (final_state (hit_test_loop ext p bodies st)) = ready_to_step st.
Proof.
  induction bodies as [| body rest IH]; intros st; [reflexivity |].
  cbn [hit_test_loop]. run_monad.
  destruct (BodyType_eqb (body_type (deref st body)) DYNAMIC); [| apply IH].
  destruct (shapes (deref st body)) as [| shape others]; [reflexivity |].
  destruct (point_query ext _ shape p) as [distance |]; [| reflexivity].
  destruct (Qltb distance 0); rewrite IH; reflexivity.
Qed.

Lemma handle_event_ready_to_step (st : ProjectileMain) (ev : Event) :
  ready_to_step (final_state (handle_event ext ev st)) = ready_to_step st.
Proof.
  unfold handle_event. run_monad.
  destruct (etype ev) as [| key | | | |]; try reflexivity.
  - destruct key; try reflexivity.
    + unfold on_keydown, create_projectile, Projectile, space_add. run_monad.
      destruct (any_entry_busy _); [reflexivity |]. simpl_fields.
      destruct (_ || _); reflexivity.
    + unfold on_keydown, space_remove. run_monad. simpl_fields.
      destruct (active_shape st) as [s |]; [| reflexivity].
      destruct (negb (nat_inb (shape_id s) _)); [reflexivity |].
      destruct (negb (nat_inb (shape_body s) _)); reflexivity.
  - unfold on_mousebuttondown. run_monad.
    now rewrite hit_test_loop_ready_to_step.
  - unfold on_mousebuttonup. run_monad. simpl_fields.
    destruct (pulling st); [| reflexivity].
    destruct (active_shape st); reflexivity.
Qed.

Lemma handle_events_ready_to_step (evs : list Event) :
  forall st,
  ready_to_step (final_state (handle_events ext evs st)) = ready_to_step st.
Proof.
  induction evs as [| ev rest IH]; intros st; [reflexivity |].
  cbn [handle_events]. run_monad.
  pose proof (handle_event_ready_to_step st ev) as H.
  destruct (handle_event ext ev st) as [[] st1 | e st1 | c st1]; cbn in H.
  - now rewrite IH.
  - exact H.
  - exact H.
Qed.

(** Only [MOUSEMOTION] assigns the pointer position. *)
Lemma hit_test_loop_m_position (p : Point) (bodies : list nat) :
  forall st,
  m_position (final_state (hit_test_loop ext p bodies st)) = m_position st.
Proof.
  induction bodies as [| body rest IH]; intros st; [reflexivity |].
  cbn [hit_test_loop]. run_monad.
  destruct (BodyType_eqb (body_type (deref st body)) DYNAMIC); [| apply IH].
  destruct (shapes (deref st body)) as [| shape others]; [reflexivity |].
  destruct (point_query ext _ shape p) as [distance |]; [| reflexivity].
  destruct (Qltb distance 0); rewrite IH; reflexivity.
Qed.

Lemma handle_event_m_position (st : ProjectileMain) (ev : Event) :
  is_Some (m_position st) ->
  is_Some (m_position (final_state (handle_event ext ev st))).
Proof.
  intros Hset. unfold handle_event. run_monad.
  destruct (etype ev) as [| key | | | |]; try exact Hset.
  - destruct key; try exact Hset.
    + unfold on_keydown, create_projectile, Projectile, space_add. run_monad.
      destruct (any_entry_busy _); [exact Hset |]. simpl_fields.
      destruct (_ || _); exact Hset.
    + unfold on_keydown, space_remove. run_monad. simpl_fields.
      destruct (active_shape st) as [s |]; [| exact Hset].
      destruct (negb (nat_inb (shape_id s) _)); [exact Hset |].
      destruct (negb (nat_inb (shape_body s) _)); exact Hset.
  - unfold on_mousebuttondown. run_monad.
    rewrite hit_test_loop_m_position. exact Hset.
  - cbn. eauto.
  - unfold on_mousebuttonup. run_monad. simpl_fields.
    destruct (pulling st); [| exact Hset].
    destruct (active_shape st); exact Hset.
Qed.

Lemma handle_events_m_position (evs : list Event) :
  forall st,
  is_Some (m_position st) ->
  is_Some (m_position (final_state (handle_events ext evs st))).
Proof.
  induction evs as [| ev rest IH]; intros st Hset; [exact Hset |].
  cbn [handle_events]. run_monad.
  pose proof (handle_event_m_position st ev Hset) as H.
  destruct (handle_event ext ev st) as [[] st1 | e st1 | c st1]; cbn in H.
  - now apply IH.
  - exact H.
  - exact H.
Qed.

Lemma frame_ready_to_step (inp : FrameInput) (st : ProjectileMain) :
  ready_to_step st = false ->
  match frame ext inp st with
  | Ok _ st' | Returned _ st' => ready_to_step st' = false
  | Raised e st' => ready_to_step st' = false \/ guard_left_set e st'
  end.
Proof.
  intros Hoff. unfold frame.
  destruct (existsb is_quit (frame_events inp)); [exact Hoff |].
  run_monad.
  pose proof (handle_events_ready_to_step (frame_events inp) st) as H.
  destruct (handle_events ext (frame_events inp) st) as [[] st1 | e st1 | c st1];
    cbn in H; [| left; congruence | congruence].
  unfold handle_camera_movement, draw_widgets. run_monad. simpl_fields.
  destruct (any_entry_busy _); simpl_fields; destruct (show_info st1);
    simpl_fields; try destruct (FPS ext * 3 <=? info_frame st1 + 1);
    match goal with
    | |- context [draw_overlay ext ?s] =>
        destruct (draw_overlay_outcome ext s) as [Ho | [Ho Hwhy]]; rewrite Ho
    end;
    try reflexivity;
    (right; split; [reflexivity | split; [reflexivity | exact Hwhy]]).
Qed.

Lemma frame_m_position (inp : FrameInput) (st : ProjectileMain) :
  is_Some (m_position st) ->
  is_Some (m_position (final_state (frame ext inp st))).
Proof.
  intros Hset. unfold frame.
  destruct (existsb is_quit (frame_events inp)); [exact Hset |].
  run_monad.
  pose proof (handle_events_m_position (frame_events inp) st Hset) as H.
  destruct (handle_events ext (frame_events inp) st) as [[] st1 | e st1 | c st1];
    cbn in H; [| exact H | exact H].
  unfold handle_camera_movement, draw_widgets. run_monad. simpl_fields.
  destruct (any_entry_busy _); simpl_fields; destruct (show_info st1);
    simpl_fields; try destruct (FPS ext * 3 <=? info_frame st1 + 1);
    match goal with
    | |- context [draw_overlay ext ?s] =>
        destruct (draw_overlay_outcome ext s) as [Ho | [Ho _]]; rewrite Ho
    end;
    exact H.
Qed.

Lemma mainloop_m_position (inputs : list FrameInput) :
  forall st,
  is_Some (m_position st) ->
  is_Some (m_position (final_state (mainloop ext inputs st))).
Proof.
  induction inputs as [| inp rest IH]; intros st Hset; [exact Hset |].
  cbn [mainloop]. run_monad. destruct (running st); [| exact Hset].
  pose proof (frame_m_position inp st Hset) as H.
  destruct (frame ext inp st) as [[] st1 | e st1 | c st1]; cbn in H.
  - now apply IH.
  - exact H.
  - exact H.
Qed.

(** X13.  The step guard after the loop, with the camera, the renderer, the
    widgets and the engine's step taken as calls that return.  Every
    completed frame resets the guard, and it is off when the loop returns
    on QUIT or Escape or when an event handler raises.  It stays set in one
    case only: the overlay of lines 350-363 raises [AttributeError] between
    lines 344 and 366, with a shape selected and pulling set, because no
    [MOUSEMOTION] has assigned the pointer position yet.  Once the pointer
    has moved, the guard is off however the loop ends. *)
Theorem step_guard_after_the_loop (inputs : list FrameInput) :
  forall st,
  ready_to_step st = false ->
  match mainloop ext inputs st with
  | Ok _ st' | Returned _ st' => ready_to_step st' = false
  | Raised e st' => ready_to_step st' = false \/ guard_left_set e st'
  end /\
  (is_Some (m_position st) ->
   ready_to_step (final_state (mainloop ext inputs st)) = false).
Proof.
  assert (Hfirst : forall st, ready_to_step st = false ->
            match mainloop ext inputs st with
            | Ok _ st' | Returned _ st' => ready_to_step st' = false
            | Raised e st' => ready_to_step st' = false \/ guard_left_set e st'
            end).
  { induction inputs as [| inp rest IH]; intros st Hoff; [exact Hoff |].
    cbn [mainloop]. run_monad. destruct (running st); [| exact Hoff].
    pose proof (frame_ready_to_step inp st Hoff) as H.
    destruct (frame ext inp st) as [[] st1 | e st1 | c st1].
    - now apply IH.
    - exact H.
    - exact H. }
  intros st Hoff. split; [now apply Hfirst |].
  intros Hset.
  pose proof (Hfirst st Hoff) as H.
  pose proof (mainloop_m_position inputs st Hset) as Hm.
  destruct (mainloop ext inputs st) as [[] st1 | e st1 | c st1];
    cbn [final_state] in *; try exact H.
  destruct H as [H | (_ & _ & _ & _ & Hnone)]; [exact H |].
  rewrite Hnone in Hm. destruct Hm as [p Hp]. discriminate.
Qed.

Lemma draw_widgets_hidden (n : nat) (st : ProjectileMain) :
  show_info st = false -> draw_widgets_times ext n st = Ok tt st.
Proof.
  intros Hoff. induction n as [| k IH]; [reflexivity |].
  cbn [draw_widgets_times]. unfold draw_widgets at 1. run_monad.
  rewrite Hoff. exact IH.
Qed.

(** X14.  The timer of the info label.  A message that is shown stays shown over
    [n] calls of [__draw_widgets] exactly when [n = 0] or the frame counter
    plus [n] is still below [3 * FPS].  The calls never take the counter
    back, so a message shown once the counter has reached [3 * FPS - 1] is
    hidden again by the first call.  The calls change neither the text, nor
    the tracked objects, nor the space. *)
Theorem info_label_timer (n : nat) :
  forall st,
  show_info st = true ->
  exists st',
    draw_widgets_times ext n st = Ok tt st' /\
    show_info st' =
      (Nat.eqb n 0 || (info_frame st + Z.of_nat n <? FPS ext * 3)) /\
    info_frame st <= info_frame st' /\
    label_info st' = label_info st /\ objects st' = objects st /\
    space st' = space st /\ heap st' = heap st.
Proof.
  induction n as [| k IH]; intros st Hon.
  - exists st. repeat split; [exact Hon | lia].
  - cbn [draw_widgets_times]. unfold draw_widgets at 1. run_monad.
    rewrite Hon. simpl_fields.
    destruct (FPS ext * 3 <=? info_frame st + 1) eqn:Hexp.
    + rewrite draw_widgets_hidden by reflexivity.
      eexists. split; [reflexivity |]. simpl_fields.
      apply Z.leb_le in Hexp. repeat split; [| lia].
      cbn [Nat.eqb orb]. symmetry. apply Z.ltb_ge. lia.
    + destruct (IH (set_info_frame (info_frame st + 1) st) Hon)
        as (st' & Hrun & Hshow & Hframe & Hrest).
      exists st'. split; [exact Hrun |]. revert Hshow Hframe Hrest. simpl_fields.
      intros Hshow Hframe Hrest. split; [| split; [lia | exact Hrest]].
      rewrite Hshow. cbn [Nat.eqb orb]. apply Z.leb_gt in Hexp.
      destruct k as [| k'].
      * cbn [Nat.eqb orb]. symmetry. apply Z.ltb_lt. lia.
      * cbn [Nat.eqb orb]. f_equal. lia.
Qed.

Lemma handle_events_escape (evs1 evs2 : list Event) (esc : Event) :
  forall st st1,
  handle_events ext evs1 st = Ok tt st1 ->
  etype esc = KEYDOWN K_ESCAPE ->
  handle_events ext (evs1 ++ esc :: evs2) st =
    Returned 0 (set_running false (set_entries (handle_entry_events ext esc) st1)).
Proof.
  induction evs1 as [| ev rest IH]; intros st st1 Hrun Hesc.
  - cbn in Hrun. injection Hrun as <-. cbn [app handle_events]. run_monad.
    unfold handle_event. run_monad. rewrite Hesc. reflexivity.
  - cbn [app handle_events] in *. revert Hrun. run_monad.
    destruct (handle_event ext ev st) as [[] st2 | |]; [| discriminate | discriminate].
    intros Hrun. now apply IH.
Qed.

End FrameLoop.

(** A press on the first projectile in the very first frame: the overlay
    raises and the guard stays set.  The same press after the pointer has
    moved: the frame completes and the guard is off. *)
Lemma step_guard_after_the_loop_witness :
  match mainloop sample_ext [mkFrameInput [click_projectile] []] init with
  | Raised AttributeError st' => ready_to_step st' = true
  | _ => False
  end /\
  match mainloop sample_ext [mkFrameInput [click_projectile] []] init with
  | Ok _ st' | Returned _ st' => ready_to_step st' = false
  | Raised e st' => ready_to_step st' = false \/ guard_left_set e st'
  end /\
  ready_to_step
    (final_state
       (mainloop sample_ext [mkFrameInput [click_projectile] []]
          (set_m_position (Some (105, 100)) init))) = false.
Proof.
  split; [vm_compute; reflexivity |]. split.
  - apply (step_guard_after_the_loop sample_ext
             [mkFrameInput [click_projectile] []] init).
    reflexivity.
  - apply (step_guard_after_the_loop sample_ext
             [mkFrameInput [click_projectile] []]
             (set_m_position (Some (105, 100)) init)).
    + reflexivity.
    + cbn. eauto.
Defined.

Lemma info_label_timer_witness :
  exists st',
    draw_widgets_times sample_ext 180 (set_show_info true init) = Ok tt st' /\
    show_info st' =
      (Nat.eqb 180 0 ||
       (info_frame (set_show_info true init) + Z.of_nat 180 <? FPS sample_ext * 3)) /\
    info_frame (set_show_info true init) <= info_frame st' /\
    label_info st' = label_info (set_show_info true init) /\
    objects st' = objects (set_show_info true init) /\
    space st' = space (set_show_info true init) /\
    heap st' = heap (set_show_info true init).
Proof.
  apply (info_label_timer sample_ext 180 (set_show_info true init)). reflexivity.
Defined.

(** X15.  Leaving the loop.  A QUIT anywhere in the queue of a frame makes the
    loop return 0 before any event of that frame is handled; Escape makes
    it return 0 after the events queued before it, and the events queued
    after it, the camera, the drawing and the engine step of that frame are
    skipped. *)
Theorem leaving_the_loop (ext : Externals) (st st1 : ProjectileMain)
    (evs1 evs2 : list Event) (esc : Event) (keys : list Key)
    (rest : list FrameInput) :
  running st = true ->
  (forall evs,
     existsb is_quit evs = true ->
     mainloop ext (mkFrameInput evs keys :: rest) st
     = Returned 0 (set_running false st)) /\
  (existsb is_quit (evs1 ++ esc :: evs2) = false ->
   handle_events ext evs1 st = Ok tt st1 ->
   etype esc = KEYDOWN K_ESCAPE ->
   mainloop ext (mkFrameInput (evs1 ++ esc :: evs2) keys :: rest) st
   = Returned 0 (set_running false (set_entries (handle_entry_events ext esc) st1))).
Proof.
  intros Hrunning. split.
  - intros evs Hquit. cbn [mainloop]. run_monad. rewrite Hrunning.
    unfold frame. cbn [frame_events]. rewrite Hquit. reflexivity.
  - intros Hnoquit Hrun Hesc. cbn [mainloop]. run_monad. rewrite Hrunning.
    unfold frame. cbn [frame_events]. rewrite Hnoquit. run_monad.
    now rewrite (handle_events_escape ext evs1 evs2 esc st st1 Hrun Hesc).
Qed.

Lemma leaving_the_loop_witness :
  mainloop sample_ext
    (mkFrameInput [click_projectile; mkEvent QUIT (0, 0) (0, 0)] [] :: []) init
  = Returned 0 (set_running false init) /\
  mainloop sample_ext
    (mkFrameInput ([click_projectile] ++ press_escape :: [release_button]) [] :: []) init
  = Returned 0
      (set_running false
         (set_entries (handle_entry_events sample_ext press_escape)
            (final_state (handle_events sample_ext [click_projectile] init)))).
Proof.
  destruct (leaving_the_loop sample_ext init
              (final_state (handle_events sample_ext [click_projectile] init))
              [click_projectile] [release_button] press_escape [] [] eq_refl)
    as [H1 H2].
  split.
  - apply H1. reflexivity.
  - apply H2; reflexivity.
Defined.

(** ** More on creating and removing tracked obstacles *)

Section Lifecycle2.

Lemma remove_nat_fresh (n : nat) (l : list nat) :
  n ∉ l -> remove_nat n (l ++ [n]) = l.
Proof.
  intros Hn. unfold remove_nat. rewrite filter_app.
  rewrite (filter_cons_False _ n []).
  2:{ rewrite Nat.eqb_refl. cbn. tauto. }
  rewrite filter_nil, app_nil_r.
  induction l as [| x l IH]; [reflexivity |].
  apply not_elem_of_cons in Hn as [Hne Hn].
  rewrite filter_cons_True.
  - now rewrite IH.
  - apply negb_True. rewrite Is_true_true. rewrite Nat.eqb_eq. exact Hne.
Qed.

(** The loop of [__remove] when the first object of the given name sits
    after [l1] and the objects from the second one after it on have other
    names: that object goes; the one right after it is stepped over
    without being looked at. *)
Lemma remove_loop_first_match (st : ProjectileMain) (n : string)
    (l1 l2 : list StaticObstacle) (o : StaticObstacle) :
  objects st = l1 ++ o :: l2 ->
  name o = n ->
  (forall x, x ∈ l1 -> name x <> n /\ obstacle_body x <> obstacle_body o) ->
  (forall x, x ∈ drop 1 l2 -> name x <> n) ->
  nat_inb (shape_id (obstacle_shape o)) (space_shapes (space st)) = true ->
  nat_inb (obstacle_body o) (space_bodies (space st)) = true ->
  remove_loop (seq 0 (length (objects st))) n st =
    Ok tt
      (set_objects (l1 ++ l2)
         (set_space
            (mkSpace (remove_nat (obstacle_body o) (space_bodies (space st)))
                     (remove_nat (shape_id (obstacle_shape o))
                        (space_shapes (space st))))
            st)).
Proof.
  intros Hobjs Ho Hl1 Hl2 Hs Hb.
  rewrite Hobjs, length_app. cbn [length]. rewrite seq_app. cbn [seq plus].
  rewrite remove_loop_skip_prefix.
  2:{ intros i Hi. apply in_seq in Hi. rewrite Hobjs.
      assert (Hlt : (i < length l1)%nat) by lia.
      destruct (lookup_lt_is_Some_2 l1 i Hlt) as [x Hx].
      exists x. split; [rewrite lookup_app_l by exact Hlt; exact Hx |].
      apply Hl1. eapply list_elem_of_lookup_2. exact Hx. }
  cbn [remove_loop]. run_monad. rewrite Hobjs.
  rewrite list_lookup_middle by reflexivity.
  rewrite Ho, String.eqb_refl.
  rewrite (space_remove_present _ _ st Hs Hb). simpl_fields. rewrite Hobjs.
  rewrite list_remove_middle by (intros x Hx; apply Hl1; now apply list_elem_of_In).
  apply remove_loop_no_match.
  intros i x Hi Hx. cbn [objects set_objects set_space] in Hx. apply in_seq in Hi.
  apply Hl2. rewrite lookup_app_r in Hx by lia.
  apply (list_elem_of_lookup_2 _ (i - length l1 - 1)).
  rewrite lookup_drop. rewrite <- Hx. f_equal. lia.
Qed.

(** [__remove] past its guards. *)
Lemma remove_runs_loop (st : ProjectileMain) :
  ready_to_step st = false -> during_query st = false ->
  entry_get (entry_name st) <> EmptyString ->
  remove st =
    remove_loop (seq 0 (length (objects st))) (entry_get (entry_name st))
      (set_label_info "" (set_show_info false st)).
Proof.
  intros Hr Hq Hname. unfold remove. run_monad. rewrite Hr, Hq.
  cbn [orb negb andb].
  destruct (entry_get (entry_name st)) eqn:Ht; [contradiction |].
  cbn [py_bool_str negb]. unfold label_info_config. run_monad. reflexivity.
Qed.

End Lifecycle2.

(** X16.  Two tracked objects of the same name next to each other: one Remove
    takes out the first of them and steps over the second, which stays
    tracked and stays in the space (the list shrinks under the loop that
    walks it). *)
Theorem remove_skips_the_next_object (st : ProjectileMain)
    (l1 l2 : list StaticObstacle) (o1 o2 : StaticObstacle) :
  well_formed st ->
  ready_to_step st = false -> during_query st = false ->
  entry_get (entry_name st) <> EmptyString ->
  objects st = l1 ++ o1 :: o2 :: l2 ->
  name o1 = entry_get (entry_name st) ->
  name o2 = entry_get (entry_name st) ->
  (forall x, x ∈ l1 ++ l2 -> name x <> entry_get (entry_name st)) ->
  exists st',
    remove st = Ok tt st' /\
    objects st' = l1 ++ o2 :: l2 /\
    (obstacle_body o1 ∉ space_bodies (space st')) /\
    obstacle_body o2 ∈ space_bodies (space st') /\
    reported st' = None.
Proof.
  intros Hwf Hr Hq Hname Hobjs Hn1 Hn2 Hothers.
  assert (Hin1 : o1 ∈ objects st).
  { rewrite Hobjs. apply elem_of_app. right. now left. }
  assert (Hin2 : o2 ∈ objects st).
  { rewrite Hobjs. apply elem_of_app. right. right. now left. }
  destruct (object_in_space st o1 Hwf Hin1) as (_ & Hs & Hb).
  pose proof Hwf as (_ & _ & (Hnd & Hobj)).
  rewrite Hobjs, fmap_app in Hnd. cbn [fmap list_fmap] in Hnd.
  apply NoDup_app in Hnd as (_ & Hdisj & Hnd2).
  apply NoDup_cons in Hnd2 as [Hfresh _].
  eexists. split.
  - rewrite (remove_runs_loop st Hr Hq Hname).
    apply (remove_loop_first_match (set_label_info "" (set_show_info false st))
             _ l1 (o2 :: l2) o1); simpl_fields; try assumption.
    + intros x Hx. split.
      * apply Hothers. apply elem_of_app. now left.
      * intros Heq. apply (Hdisj (obstacle_body x)).
        -- now apply list_elem_of_fmap_2.
        -- rewrite Heq. now left.
    + intros x Hx. cbn [drop] in Hx. apply Hothers. apply elem_of_app. now right.
  - simpl_fields. split; [reflexivity |]. split; [| split; [| reflexivity]].
    + intros Hin. apply elem_of_remove_nat in Hin as [_ Hne]. now apply Hne.
    + apply elem_of_remove_nat. destruct (Hobj o2 Hin2) as (H2 & _). split; [exact H2 |].
      intros Heq. apply Hfresh. rewrite <- Heq.
      change (obstacle_body o2 ∈ obstacle_body o2 :: (obstacle_body <$> l2)). now left.
Qed.

(** X17.  Create, then Remove with the same form: when no tracked object has the
    name yet and the three numeric fields hold numbers, both complete, the
    new object is gone again, and the tracked list and the space are what
    they were before the Create. *)
Theorem create_then_remove_restores (st : ProjectileMain) (shape : string) (x y m : Z) :
  well_formed st ->
  ready_to_step st = false -> during_query st = false ->
  existsb (fun entry => negb (py_bool_str (entry_get entry))) (entries st) = false ->
  parse_digits 0 (text (entry_pos_x st)) = Some x ->
  parse_digits 0 (text (entry_pos_y st)) = Some y ->
  parse_digits 0 (text (entry_multiplier st)) = Some m ->
  (forall o, o ∈ objects st -> name o <> entry_get (entry_name st)) ->
  exists st1 st2,
    create shape st = Ok tt st1 /\
    remove st1 = Ok tt st2 /\
    length (objects st1) = S (length (objects st)) /\
    objects st2 = objects st /\ space st2 = space st /\
    reported st2 = None.
Proof.
  intros Hwf Hr Hq Hfilled Hx Hy Hm Hfresh.
  assert (Hne : text (entry_name st) <> EmptyString /\
                text (entry_multiplier st) <> EmptyString /\
                text (entry_pos_x st) <> EmptyString /\
                text (entry_pos_y st) <> EmptyString).
  { unfold entries, entry_get in Hfilled. cbn [existsb] in Hfilled.
    repeat (apply orb_false_elim in Hfilled as [? Hfilled]).
    repeat split; intros Heq;
      match goal with
      | H : negb (py_bool_str ?t) = false |- _ =>
          match type of Heq with t = _ => rewrite Heq in H; discriminate end
      end. }
  destruct Hne as (Hnn & Hnm & Hnx & Hny).
  pose proof Hwf as (Hstore & Hsel & Hobjs).
  pose proof Hstore as (_ & _ & Hbf & Hsf & _).
  eexists. eexists. split.
  { apply (create_succeeds st shape x y m Hr Hq Hfilled); try assumption;
      now apply entry_get_int_ok. }
  split.
  { rewrite remove_runs_loop by (simpl_fields; assumption).
    match goal with
    | |- remove_loop _ ?n ?st0 = _ =>
        apply (remove_loop_first_match st0 n (objects st) [])
    end; simpl_fields.
    - reflexivity.
    - reflexivity.
    - intros o Ho. split; [now apply Hfresh |]. cbn [obstacle_body].
      destruct Hobjs as [_ Hobj]. destruct (Hobj o Ho) as (Hin & _).
      apply Hbf in Hin. lia.
    - intros o Ho. cbn in Ho. inversion Ho.
    - cbn [obstacle_shape shape_id]. apply nat_inb_elem_of.
      apply elem_of_app. right. now left.
    - cbn [obstacle_body]. apply nat_inb_elem_of.
      apply elem_of_app. right. now left. }
  simpl_fields. cbn [obstacle_body obstacle_shape shape_id].
  rewrite length_app, app_nil_r. cbn [length].
  rewrite !remove_nat_fresh.
  - repeat split; [lia | now destruct (space st)].
  - intros Hin. apply Hsf in Hin. lia.
  - intros Hin. apply Hbf in Hin. lia.
Qed.

(** X18.  The checks behind the guards: [create] with an empty field and [remove]
    with an empty name field only show their message; the tracked list, the
    space, the bodies and the identities are untouched. *)
Theorem empty_fields_are_reported (st : ProjectileMain) (shape : string) :
  ready_to_step st = false -> during_query st = false ->
  (existsb (fun entry => negb (py_bool_str (entry_get entry))) (entries st) = true ->
   exists st', create shape st = Ok tt st' /\
     reported st' = Some msg_fill_all /\
     objects st' = objects st /\ space st' = space st /\
     heap st' = heap st /\ next_id st' = next_id st) /\
  (entry_get (entry_name st) = EmptyString ->
   exists st', remove st = Ok tt st' /\
     reported st' = Some msg_fill_name /\
     objects st' = objects st /\ space st' = space st /\
     heap st' = heap st /\ next_id st' = next_id st).
Proof.
  intros Hr Hq. split.
  - intros Hempty. eexists. split.
    + unfold create. run_monad. rewrite Hr, Hq. cbn [orb negb andb].
      rewrite Hempty. unfold label_info_config. run_monad. reflexivity.
    + repeat split.
  - intros Hempty. eexists. split.
    + unfold remove. run_monad. rewrite Hr, Hq. cbn [orb negb andb].
      rewrite Hempty. cbn [py_bool_str negb].
      unfold label_info_config. run_monad. reflexivity.
    + repeat split.
Qed.

Lemma create_final_well_formed (st : ProjectileMain) (shape : string) :
  well_formed st -> well_formed (final_state (create shape st)).
Proof.
  intros Hwf. pose proof (create_well_formed st shape Hwf) as H.
  destruct (create shape st) as [[] st' | e st' | c st']; cbn [final_state].
  - exact H.
  - destruct H as [_ ->]. exact Hwf.
  - destruct H.
Qed.

Lemma well_formed_form_filled : well_formed form_filled.
Proof.
  apply (well_formed_same_selection init); try reflexivity.
  - exact well_formed_init.
  - apply same_kinds_refl.
  - now left.
Qed.

Lemma well_formed_created_AA : well_formed created_AA.
Proof.
  apply create_final_well_formed. apply create_final_well_formed.
  exact well_formed_form_filled.
Qed.

(** Two circles named A, and one Remove. *)
Lemma remove_skips_the_next_object_witness :
  exists st',
    remove created_AA = Ok tt st' /\
    objects st' =
      [] ++ mkStaticObstacle "A" "Circle" (Radius 10) 4 (mkShape 5 4 10) :: [] /\
    (2%nat ∉ space_bodies (space st')) /\
    4%nat ∈ space_bodies (space st') /\
    reported st' = None.
Proof.
  apply (remove_skips_the_next_object created_AA [] []
           (mkStaticObstacle "A" "Circle" (Radius 10) 2 (mkShape 3 2 10))
           (mkStaticObstacle "A" "Circle" (Radius 10) 4 (mkShape 5 4 10))).
  - exact well_formed_created_AA.
  - reflexivity.
  - reflexivity.
  - discriminate.
  - vm_compute. reflexivity.
  - reflexivity.
  - reflexivity.
  - intros x Hx. cbn in Hx. inversion Hx.
Defined.

Lemma create_then_remove_restores_witness :
  exists st1 st2,
    create "Circle" form_filled = Ok tt st1 /\
    remove st1 = Ok tt st2 /\
    length (objects st1) = S (length (objects form_filled)) /\
    objects st2 = objects form_filled /\ space st2 = space form_filled /\
    reported st2 = None.
Proof.
  apply (create_then_remove_restores form_filled "Circle" 50 50 10).
  - exact well_formed_form_filled.
  - reflexivity.
  - reflexivity.
  - reflexivity.
  - reflexivity.
  - reflexivity.
  - reflexivity.
  - intros o Ho. cbn in Ho. inversion Ho.
Defined.

Lemma empty_fields_are_reported_witness :
  (exists st', create "Circle" init = Ok tt st' /\
     reported st' = Some msg_fill_all /\
     objects st' = objects init /\ space st' = space init /\
     heap st' = heap init /\ next_id st' = next_id init) /\
  (exists st', remove init = Ok tt st' /\
     reported st' = Some msg_fill_name /\
     objects st' = objects init /\ space st' = space init /\
     heap st' = heap init /\ next_id st' = next_id init).
Proof.
  destruct (empty_fields_are_reported init "Circle" eq_refl eq_refl) as [H1 H2].
  split; [apply H1 | apply H2]; reflexivity.
Defined.

(** ** The object selector and the visibility buttons *)

Section Selector.

Lemma rotate_right_left (q : list string) : rotate_right (rotate_left q) = q.
Proof.
  destruct q as [| x r]; [reflexivity |].
  unfold rotate_left, rotate_right. rewrite last_snoc.
  now rewrite removelast_last.
Qed.

Lemma rotate_left_right (q : list string) : rotate_left (rotate_right q) = q.
Proof.
  destruct q as [| x r] using rev_ind; [reflexivity |].
  unfold rotate_right. rewrite last_snoc, removelast_last. reflexivity.
Qed.

Lemma rotate_left_nonempty (q : list string) : q <> [] -> rotate_left q <> [].
Proof.
  destruct q as [| x r]; [contradiction |]. intros _. cbn.
  destruct r; discriminate.
Qed.

Lemma rotate_right_nonempty (q : list string) : q <> [] -> rotate_right q <> [].
Proof.
  destruct q as [| x r] using rev_ind; [contradiction |]. intros _.
  unfold rotate_right. rewrite last_snoc. discriminate.
Qed.

Lemma next_object_times_queue (l1 : list string) :
  forall l2 st m,
  l1 ++ l2 <> [] ->
  object_queue m = l1 ++ l2 ->
  exists st' m',
    next_object_times (length l1) (st, m) = Some (st', m') /\
    object_queue m' = l2 ++ l1.
Proof.
  induction l1 as [| x l1 IH]; intros l2 st m Hne Hq.
  - exists st, m. split; [reflexivity |]. now rewrite app_nil_r.
  - cbn [length next_object_times]. unfold next_object, select_head.
    cbn [snd fst]. rewrite Hq. cbn [app rotate_left].
    destruct ((l1 ++ l2) ++ [x]) as [| y r] eqn:Hrot.
    { destruct (l1 ++ l2); discriminate. }
    rewrite <- Hrot.
    destruct (IH (l2 ++ [x]) (set_selected_object y st)
                (update_create_button y ((l1 ++ l2) ++ [x]) m))
      as (st' & m' & Hrun & Hq').
    + destruct l1; [destruct l2 |]; discriminate.
    + cbn [object_queue update_create_button]. now rewrite <- app_assoc.
    + exists st', m'. split; [exact Hrun |].
      rewrite Hq', <- app_assoc. reflexivity.
Qed.

End Selector.

(** X19.  The selector buttons undo each other: on a non-empty deque, Next after
    Previous and Previous after Next both complete and bring the deque back
    to where it was; the selected object is then the head of the deque, and
    the label, the caption and the argument of the Create button name
    it. *)
Theorem selector_buttons_undo_each_other (st : ProjectileMain) (m : Menu) :
  object_queue m <> [] ->
  (exists st1 m1 st2 m2,
     previous_object (st, m) = Some (st1, m1) /\
     next_object (st1, m1) = Some (st2, m2) /\
     object_queue m2 = object_queue m /\
     head (object_queue m2) = Some (selected_object st2) /\
     btn_create_args m2 = selected_object st2 /\
     label_object_name m2 = selected_object st2 /\
     btn_create_text m2 = String.append "Create " (selected_object st2)) /\
  (exists st1 m1 st2 m2,
     next_object (st, m) = Some (st1, m1) /\
     previous_object (st1, m1) = Some (st2, m2) /\
     object_queue m2 = object_queue m /\
     head (object_queue m2) = Some (selected_object st2) /\
     btn_create_args m2 = selected_object st2 /\
     label_object_name m2 = selected_object st2 /\
     btn_create_text m2 = String.append "Create " (selected_object st2)).
Proof.
  intros Hne. split.
  - pose proof (rotate_right_nonempty _ Hne) as Hr.
    pose proof (rotate_left_right (object_queue m)) as Hback.
    destruct (rotate_right (object_queue m)) as [| y r] eqn:Hrot; [contradiction |].
    destruct (object_queue m) as [| x q] eqn:Hq; [contradiction |].
    exists (set_selected_object y st), (update_create_button y (y :: r) m).
    exists (set_selected_object x (set_selected_object y st)).
    exists (update_create_button x (x :: q) (update_create_button y (y :: r) m)).
    split.
    { unfold previous_object, select_head. cbn [fst snd]. now rewrite Hq, Hrot. }
    split.
    { unfold next_object, select_head.
      cbn [fst snd object_queue update_create_button]. now rewrite Hback. }
    repeat split.
  - pose proof (rotate_left_nonempty _ Hne) as Hr.
    pose proof (rotate_right_left (object_queue m)) as Hback.
    destruct (rotate_left (object_queue m)) as [| y r] eqn:Hrot; [contradiction |].
    destruct (object_queue m) as [| x q] eqn:Hq; [contradiction |].
    exists (set_selected_object y st), (update_create_button y (y :: r) m).
    exists (set_selected_object x (set_selected_object y st)).
    exists (update_create_button x (x :: q) (update_create_button y (y :: r) m)).
    split.
    { unfold next_object, select_head. cbn [fst snd]. now rewrite Hq, Hrot. }
    split.
    { unfold previous_object, select_head.
      cbn [fst snd object_queue update_create_button]. now rewrite Hback. }
    repeat split.
Qed.

Lemma selector_buttons_undo_each_other_witness :
  (exists st1 m1 st2 m2,
     previous_object (init, init_menu sample_selector) = Some (st1, m1) /\
     next_object (st1, m1) = Some (st2, m2) /\
     object_queue m2 = object_queue (init_menu sample_selector) /\
     head (object_queue m2) = Some (selected_object st2) /\
     btn_create_args m2 = selected_object st2 /\
     label_object_name m2 = selected_object st2 /\
     btn_create_text m2 = String.append "Create " (selected_object st2)) /\
  (exists st1 m1 st2 m2,
     next_object (init, init_menu sample_selector) = Some (st1, m1) /\
     previous_object (st1, m1) = Some (st2, m2) /\
     object_queue m2 = object_queue (init_menu sample_selector) /\
     head (object_queue m2) = Some (selected_object st2) /\
     btn_create_args m2 = selected_object st2 /\
     label_object_name m2 = selected_object st2 /\
     btn_create_text m2 = String.append "Create " (selected_object st2)).
Proof.
  apply (selector_buttons_undo_each_other init (init_menu sample_selector)).
  discriminate.
Defined.

(** X20.  Pressing Next as many times as the deque has members goes once round:
    every press completes and the deque is back in its original order. *)
Theorem selector_goes_round (st : ProjectileMain) (m : Menu) :
  object_queue m <> [] ->
  exists st' m',
    next_object_times (length (object_queue m)) (st, m) = Some (st', m') /\
    object_queue m' = object_queue m.
Proof.
  intros Hne.
  destruct (next_object_times_queue (object_queue m) [] st m) as (st' & m' & Hrun & Hq).
  - now rewrite app_nil_r.
  - now rewrite app_nil_r.
  - exists st', m'. split; [exact Hrun | exact Hq].
Qed.

Lemma selector_goes_round_witness :
  exists st' m',
    next_object_times (length (object_queue (init_menu sample_selector)))
      (init, init_menu sample_selector) = Some (st', m') /\
    object_queue m' = object_queue (init_menu sample_selector).
Proof.
  apply (selector_goes_round init (init_menu sample_selector)). discriminate.
Defined.

(** X21.  The two visibility buttons.  Each press flips its flag and sets the
    caption from the new flag, so two presses restore the flag, and from
    the first press on the pair of flag and caption alternates between two
    values: three presses leave the menu as one press does (the captions of
    [init_widgets] do not come back). *)
Theorem visibility_toggles_alternate (m : Menu) :
  is_menu_visible (toggle_menu_visibility m) = negb (is_menu_visible m) /\
  btn_menu_visibility (toggle_menu_visibility m)
    = (if is_menu_visible m then "Expand" else "Collapse")%string /\
  toggle_menu_visibility (toggle_menu_visibility (toggle_menu_visibility m))
    = toggle_menu_visibility m /\
  is_description_visible (toggle_desc_visibility m) = negb (is_description_visible m) /\
  btn_description_visibility (toggle_desc_visibility m)
    = (if is_description_visible m then "Show Description" else "Hide Description")%string /\
  toggle_desc_visibility (toggle_desc_visibility (toggle_desc_visibility m))
    = toggle_desc_visibility m /\
  toggle_menu_visibility (toggle_menu_visibility (init_menu (object_queue m)))
    <> init_menu (object_queue m).
Proof.
  unfold toggle_menu_visibility, toggle_desc_visibility.
  destruct m as [q l t a v d bm bd]. cbn.
  destruct v, d; cbn; repeat split; discriminate.
Qed.

(** ** Typing into a field, and what Create builds *)

(** X22.  What the busy flag of the entries does stop.  The key [c], handled
    while an entry is busy, changes nothing but the entries themselves: no
    projectile appears.  The camera update of a frame that finds an entry
    busy leaves the whole state, the camera included, as it is. *)
Theorem busy_entries_stop_camera_and_spawn (ext : Externals) (st : ProjectileMain)
    (ev : Event) (keys : list Key) :
  (etype ev = KEYDOWN K_c ->
   any_entry_busy (set_entries (handle_entry_events ext ev) st) = true ->
   handle_event ext ev st = Ok tt (set_entries (handle_entry_events ext ev) st)) /\
  (any_entry_busy st = true -> handle_camera_movement ext keys st = Ok tt st).
Proof.
  split.
  - intros Hev Hbusy. unfold handle_event. run_monad. rewrite Hev.
    cbn [on_keydown]. now apply create_projectile_waits_for_entries.
  - apply camera_waits_for_entries.
Qed.

(** X23.  Create on a complete form in a well-formed state, with the guards off:
    the engine accepts the new body, the object is tracked last under the
    name of the name field, with the kind passed by the button, at the
    position read from the two position fields; its size parameter is a
    radius exactly when the selected object is Circle; its body is static,
    in the space, and no press can ever hit it. *)
Theorem created_obstacle_is_static (ext : Externals) (st : ProjectileMain)
    (shape : string) (x y m : Z) :
  well_formed st ->
  ready_to_step st = false -> during_query st = false ->
  existsb (fun entry => negb (py_bool_str (entry_get entry))) (entries st) = false ->
  parse_digits 0 (text (entry_pos_x st)) = Some x ->
  parse_digits 0 (text (entry_pos_y st)) = Some y ->
  parse_digits 0 (text (entry_multiplier st)) = Some m ->
  exists st' o,
    create shape st = Ok tt st' /\
    objects st' = objects st ++ [o] /\
    name o = entry_get (entry_name st) /\
    kind o = shape /\
    size_param o =
      (if String.eqb (selected_object st) "Circle" then Radius m else Multiplier m) /\
    position (deref st' (obstacle_body o)) = vec_of_point (x, y) /\
    body_type (deref st' (obstacle_body o)) = STATIC /\
    obstacle_body o ∈ space_bodies (space st') /\
    reported st' = None /\
    forall p, hit ext (heap st') p (obstacle_body o) = None.
Proof.
  intros Hwf Hr Hq Hfilled Hx Hy Hm.
  assert (Hne : text (entry_multiplier st) <> EmptyString /\
                text (entry_pos_x st) <> EmptyString /\
                text (entry_pos_y st) <> EmptyString).
  { unfold entries, entry_get in Hfilled. cbn [existsb] in Hfilled.
    repeat (apply orb_false_elim in Hfilled as [? Hfilled]).
    repeat split; intros Heq;
      match goal with
      | H : negb (py_bool_str ?t) = false |- _ =>
          match type of Heq with t = _ => rewrite Heq in H; discriminate end
      end. }
  destruct Hne as (Hnm & Hnx & Hny).
  eexists. eexists. split.
  { apply (create_succeeds st shape x y m Hr Hq Hfilled); try apply Hwf;
      now apply entry_get_int_ok. }
  split; [simpl_fields; reflexivity |].
  unfold deref, hit. simpl_fields. cbn [obstacle_body name kind size_param].
  rewrite lookup_total_insert_eq. cbn [position body_type BodyType_eqb].
  repeat split. apply elem_of_app. right. now left.
Qed.

Lemma created_obstacle_is_static_witness :
  exists st' o,
    create "Circle" form_filled = Ok tt st' /\
    objects st' = objects form_filled ++ [o] /\
    name o = entry_get (entry_name form_filled) /\
    kind o = "Circle"%string /\
    size_param o =
      (if String.eqb (selected_object form_filled) "Circle"
       then Radius 10 else Multiplier 10) /\
    position (deref st' (obstacle_body o)) = vec_of_point (50, 50) /\
    body_type (deref st' (obstacle_body o)) = STATIC /\
    obstacle_body o ∈ space_bodies (space st') /\
    reported st' = None /\
    forall p, hit sample_ext (heap st') p (obstacle_body o) = None.
Proof.
  apply (created_obstacle_is_static sample_ext form_filled "Circle" 50 50 10);
    try reflexivity.
  exact well_formed_form_filled.
Defined.

Lemma busy_entries_stop_camera_and_spawn_witness :
  handle_event sample_ext spawn_projectile typing
  = Ok tt (set_entries (handle_entry_events sample_ext spawn_projectile) typing) /\
  handle_camera_movement sample_ext [K_other 119] typing = Ok tt typing.
Proof.
  destruct (busy_entries_stop_camera_and_spawn sample_ext typing spawn_projectile
              [K_other 119]) as [H1 H2].
  split; [apply H1 | apply H2]; reflexivity.
Defined.

(** ** Which bodies a press turns *)

Section PressTurns.

Variable ext : Externals.

Lemma faced_insert_other (h : gmap nat Body) (p : Point) (b b' : nat) (x : Body) :
  b <> b' ->
  (forall s, head (shapes (h !!! b')) = Some s -> shape_body s = b') ->
  faced ext (<[b := x]> h) p b' = faced ext h p b'.
Proof.
  intros Hne Hatt. unfold faced.
  rewrite (hit_insert_other ext h p b b' x Hne Hatt).
  now rewrite lookup_total_insert_ne by exact Hne.
Qed.

Lemma hit_test_loop_faces (p : Point) (bodies : list nat) :
  forall st st',
  List.NoDup bodies ->
  first_shape_attached (heap st) bodies ->
  hit_test_loop ext p bodies st = Ok tt st' ->
  forall b,
    (In b bodies -> heap st' !!! b = faced ext (heap st) p b) /\
    (~ In b bodies -> heap st' !!! b = heap st !!! b).
Proof.
  induction bodies as [| body rest IH]; intros st st' Hnd Hatt Hrun b.
  - cbn in Hrun. injection Hrun as <-. split; [intros [] | reflexivity].
  - apply List.NoDup_cons_iff in Hnd as [Hnin Hnd].
    assert (Hatt' : first_shape_attached (heap st) rest).
    { intros b0 s Hin. apply Hatt. now right. }
    cbn [hit_test_loop] in Hrun. revert Hrun. run_monad. unfold deref.
    assert (Hskip : forall st1,
              heap st1 = heap st ->
              hit ext (heap st) p body = None ->
              hit_test_loop ext p rest st1 = Ok tt st' ->
              (In b (body :: rest) -> heap st' !!! b = faced ext (heap st) p b) /\
              (~ In b (body :: rest) -> heap st' !!! b = heap st !!! b)).
    { intros st1 Hheap Hmiss Hrun.
      assert (Hatt1 : first_shape_attached (heap st1) rest) by now rewrite Hheap.
      destruct (IH st1 st' Hnd Hatt1 Hrun b) as [Hin Hout]. rewrite Hheap in *.
      split.
      - intros [<- | Hb]; [| now apply Hin].
        rewrite (Hout Hnin). unfold faced. now rewrite Hmiss.
      - intros Hb. apply Hout. intros Hb'. apply Hb. now right. }
    unfold hit in Hskip at 1.
    destruct (BodyType_eqb (body_type (heap st !!! body)) DYNAMIC) eqn:Hdyn.
    2:{ intros Hrun. now apply (Hskip st). }
    destruct (shapes (heap st !!! body)) as [| shape others] eqn:Hshapes;
      [discriminate |].
    assert (Hsb : shape_body shape = body).
    { apply Hatt; [now left | now rewrite Hshapes]. }
    cbn [heap set_during_query]. rewrite Hsb in *.
    destruct (point_query ext (heap st !!! body) shape p) as [distance |] eqn:Hquery;
      [| discriminate].
    destruct (Qltb distance 0) eqn:Hneg.
    2:{ intros Hrun.
        match type of Hrun with
        | hit_test_loop _ _ _ ?st1 = _ => exact (Hskip st1 eq_refl eq_refl Hrun)
        end. }
    clear Hskip. intros Hrun.
    assert (Hhit : hit ext (heap st) p body = Some shape).
    { unfold hit. now rewrite Hdyn, Hshapes, Hsb, Hquery, Hneg. }
    match type of Hrun with
    | hit_test_loop _ _ _ ?st2 = _ =>
        destruct (IH st2 st' Hnd) with (b := b) as [Hin Hout]; [| exact Hrun |]
    end.
    { cbn [heap set_heap]. now apply first_shape_attached_insert_other. }
    cbn [heap set_heap set_pulling set_active_shape set_during_query] in Hin, Hout.
    split.
    + intros [<- | Hb].
      * rewrite (Hout Hnin). rewrite lookup_total_insert_eq.
        unfold faced. now rewrite Hhit.
      * rewrite (Hin Hb). apply faced_insert_other.
        -- intros ->. contradiction.
        -- intros s. now apply Hatt'.
    + intros Hb. rewrite Hout by (intros Hb'; apply Hb; now right).
      apply lookup_total_insert_ne. intros ->. apply Hb. now left.
Qed.

(** X24.  A completed press turns every dynamic body of the space whose shape
    contains the pressed point to face that point (its angle becomes the
    angle of the vector from its position to the point), not only the body
    that ends up selected, and leaves every other body exactly as it
    was.  The bodies of the space are assumed distinct, each with its first
    shape attached to it. *)
Theorem press_turns_every_hit_body (st st' : ProjectileMain) (ev : Event) :
  List.NoDup (space_bodies (space st)) ->
  first_shape_attached (heap st) (space_bodies (space st)) ->
  on_mousebuttondown ext ev st = Ok tt st' ->
  forall b,
    (In b (space_bodies (space st)) ->
     deref st' b =
       faced ext (heap st) (pointer_to_world ext (camera st) (mouse_get_pos ev)) b) /\
    (~ In b (space_bodies (space st)) -> deref st' b = deref st b).
Proof.
  intros Hnd Hatt Hrun b. unfold on_mousebuttondown in Hrun. revert Hrun.
  run_monad. intros Hrun.
  exact (hit_test_loop_faces _ _ (set_active_shape None st) st' Hnd Hatt Hrun b).
Qed.

End PressTurns.

(** The press between the two overlapping projectiles turns both. *)
Lemma press_turns_every_hit_body_witness :
  let st' := final_state (on_mousebuttondown sample_ext click_overlap two_projectiles) in
  (angle (deref st' 0%nat) == 0 /\ angle (deref st' 2%nat) == 3)%Q /\
  forall b,
    (In b (space_bodies (space two_projectiles)) ->
     deref st' b =
       faced sample_ext (heap two_projectiles)
         (pointer_to_world sample_ext (camera two_projectiles)
            (mouse_get_pos click_overlap)) b) /\
    (~ In b (space_bodies (space two_projectiles)) ->
     deref st' b = deref two_projectiles b).
Proof.
  split; [vm_compute; split; reflexivity |].
  apply (press_turns_every_hit_body sample_ext two_projectiles
           (final_state (on_mousebuttondown sample_ext click_overlap two_projectiles))
           click_overlap).
  - exact NoDup_two_projectiles.
  - exact attached_two_projectiles.
  - vm_compute. reflexivity.
Defined.
